(** * Booth shop blocker: the content script and the blocklist store

    A shallow embedding of the extension's content script (classification of
    item cards, the MutationObserver callback, the storage-change listener)
    and of [BoothShopStorage], with the properties of the design document
    stated and proved over it.

    JavaScript values are modelled as follows.
    - A plain object used as a map ([blockedShops]) is a [gmap string _] of
      its own properties; the operators [in], [o[k]], [o[k] = v] and
      [delete o[k]] are given their JavaScript meaning, which also consults
      [Object.prototype].
    - DOM nodes are identified by a number (object identity); the mutable
      part of an element (class list, attributes, inline [display]) lives in
      a store indexed by that number, the tree structure is immutable data.
    - Code runs in a state-and-exception monad [Js] over a [World] that holds
      the element store, the console, the persisted storage area, the script
      of storage faults, the log of storage calls and the clock. *)

From Stdlib Require Import String Ascii ZArith List Sorted.
From stdpp Require Import base option list gmap strings.

Open Scope string_scope.
Open Scope list_scope.

(** ** Strings *)

Definition dot : ascii := "."%char.

(** [split_at_dot s] cuts [s] at its first dot: the text before it and the
    text after it; [None] when [s] has no dot. *)
Fixpoint split_at_dot (s : string) : option (string * string) :=
  match s with
  | EmptyString => None
  | String c rest =>
      if Ascii.eqb c dot then Some (EmptyString, rest)
      else match split_at_dot rest with
           | Some (before, after) => Some (String c before, after)
           | None => None
           end
  end.

(** No character of [s] is a dot: the language of [[^.]*]. *)
Fixpoint dot_free (s : string) : bool :=
  match s with
  | EmptyString => true
  | String c rest => negb (Ascii.eqb c dot) && dot_free rest
  end.

(** [hostname.match(/^([^.]+)\.booth\.pm$/)], returning capture group 1.
    The class [[^.]] cannot cross a dot and the next character of the
    pattern must be one, so group 1 is the text before the first dot. *)
Definition match_shop_host (hostname : string) : option string :=
  match split_at_dot hostname with
  | Some (sub, rest) =>
      if negb (String.eqb sub "") && String.eqb rest "booth.pm"
      then Some sub else None
  | None => None
  end.

(** ** JavaScript objects used as maps *)

(** The properties every plain object inherits from [Object.prototype]. *)
Definition Object_prototype_names : list string :=
  [ "constructor"; "hasOwnProperty"; "isPrototypeOf"; "propertyIsEnumerable";
    "toLocaleString"; "toString"; "valueOf"; "__proto__";
    "__defineGetter__"; "__defineSetter__"; "__lookupGetter__";
    "__lookupSetter__" ].

Definition inherited (k : string) : bool :=
  existsb (String.eqb k) Object_prototype_names.

(** [k in o]: own property or inherited one. *)
Definition js_in {V} (k : string) (o : gmap string V) : bool :=
  match o !! k with
  | Some _ => true
  | None => inherited k
  end.

(** The value of [o[k]]. *)
Inductive PropValue (V : Type) :=
  | Own (v : V)        (* an own property of the object *)
  | Builtin            (* a function or object found on Object.prototype *)
  | Undefined.
Arguments Own {V} v.
Arguments Builtin {V}.
Arguments Undefined {V}.

Definition js_get {V} (k : string) (o : gmap string V) : PropValue V :=
  match o !! k with
  | Some v => Own v
  | None => if inherited k then Builtin else Undefined
  end.

(** [o[k] = v]. Assigning to [__proto__] on an object with no own property
    of that name runs the inherited setter: the prototype changes and no
    own property is created. *)
Definition js_assign {V} (k : string) (v : V) (o : gmap string V)
  : gmap string V :=
  match o !! k with
  | None => if String.eqb k "__proto__" then o else <[k := v]> o
  | Some _ => <[k := v]> o
  end.

(** [delete o[k]]: removes an own property. *)
Definition js_delete {V} (k : string) (o : gmap string V) : gmap string V :=
  delete k o.

(** ** The blocklist *)

Record ShopRecord := {
  name : string;
  reason : string;
  timestamp : Z
}.

Abbreviation Blocklist := (gmap string ShopRecord).

(** ** The DOM *)

(** The mutable part of an element. [style_display] is the [display]
    property of the inline style ([element.style.display]); [attributes]
    holds the content attributes other than [style]. *)
Record Element := {
  classList : list string;
  attributes : gmap string string;
  style_display : string
}.

#[local] Set Warnings "-register-all".

(** A node reference: its identity and the nodes below it. Nodes whose
    identity has no entry in the element store are not elements (text,
    comments, the document itself). *)
Inductive DomNode := Node (nodeId : nat) (childNodes : list DomNode).

Definition nodeId (n : DomNode) : nat := match n with Node i _ => i end.
Definition childNodes (n : DomNode) : list DomNode :=
  match n with Node _ kids => kids end.

(** The node and everything below it, in document order. *)
Fixpoint subtree (n : DomNode) : list DomNode :=
  match n with
  | Node _ kids => n :: flat_map subtree kids
  end.

Definition descendants (n : DomNode) : list DomNode :=
  flat_map subtree (childNodes n).

(** The two selector shapes the script uses: [.c] and [.c[a]]. *)
Inductive Selector :=
  | ByClass (c : string)
  | ByClassAttr (c : string) (a : string).

Definition has_class (c : string) (e : Element) : bool :=
  existsb (String.eqb c) (classList e).

Definition has_attr (a : string) (e : Element) : bool :=
  match attributes e !! a with Some _ => true | None => false end.

Definition matches (sel : Selector) (e : Element) : bool :=
  match sel with
  | ByClass c => has_class c e
  | ByClassAttr c a => has_class c e && has_attr a e
  end.

(** ** The world and the [Js] monad *)

Inductive StorageCall :=
  | LocalGet
  | LocalSet (value : Blocklist).

Inductive Exn :=
  | TypeError (message : string)
  | StorageError.

Record World := {
  document : DomNode;               (* the Document node *)
  dom_elements : gmap nat Element;  (* element state, by node identity *)
  console : list string;            (* lines written by console.error *)
  persisted : option Blocklist;     (* storage.local, key blockedShops *)
  faults : list bool;               (* true: the next storage call rejects *)
  storage_calls : list StorageCall; (* calls made to storage.local *)
  clock : Z                         (* Date.now() *)
}.

Definition with_elements (els : gmap nat Element) (w : World) : World :=
  {| document := document w; dom_elements := els; console := console w;
     persisted := persisted w; faults := faults w;
     storage_calls := storage_calls w; clock := clock w |}.

Definition with_console (c : list string) (w : World) : World :=
  {| document := document w; dom_elements := dom_elements w; console := c;
     persisted := persisted w; faults := faults w;
     storage_calls := storage_calls w; clock := clock w |}.

Definition with_storage (p : option Blocklist) (fs : list bool)
    (calls : list StorageCall) (w : World) : World :=
  {| document := document w; dom_elements := dom_elements w;
     console := console w; persisted := p; faults := fs;
     storage_calls := calls; clock := clock w |}.

Inductive Completion (A : Type) :=
  | Normal (a : A)
  | Throw (e : Exn).
Arguments Normal {A} a.
Arguments Throw {A} e.

Definition Js (A : Type) : Type := World → Completion A * World.

Definition ret {A} (a : A) : Js A := fun w => (Normal a, w).

Definition throw {A} (e : Exn) : Js A := fun w => (Throw e, w).

Definition bind {A B} (m : Js A) (k : A → Js B) : Js B :=
  fun w =>
    match m w with
    | (Normal a, w') => k a w'
    | (Throw e, w') => (Throw e, w')
    end.

(** [try { body } catch (error) { handler }] *)
Definition try_catch {A} (body : Js A) (handler : Exn → Js A) : Js A :=
  fun w =>
    match body w with
    | (Normal a, w') => (Normal a, w')
    | (Throw e, w') => handler e w'
    end.

(** Calling an [async] function that contains no [await] and dropping the
    promise: the body runs to its end now; if it throws, the promise is
    rejected and nobody observes it. *)
Definition call_async {A} (body : Js A) : Js unit :=
  fun w => (Normal tt, snd (body w)).

Declare Scope js_scope.
Delimit Scope js_scope with js.
Notation "x <- m ;; k" := (bind m (fun x => k))
  (at level 100, m at next level, right associativity) : js_scope.
Notation "m ;; k" := (bind m (fun _ => k))
  (at level 100, right associativity) : js_scope.
Open Scope js_scope.

(** [list.forEach(f)] *)
Fixpoint forEach {A} (l : list A) (f : A → Js unit) : Js unit :=
  match l with
  | [] => ret tt
  | x :: rest => f x ;; forEach rest f
  end.

Definition console_error (line : string) : Js unit :=
  fun w => (Normal tt, with_console (console w ++ [line])%list w).

Definition Date_now : Js Z := fun w => (Normal (clock w), w).

(** *** Element operations

    Each of them is a method of [Element]; on a node that is not an
    element the method does not exist and the call throws. *)

Definition element_of (n : DomNode) : Js Element :=
  fun w =>
    match dom_elements w !! nodeId n with
    | Some e => (Normal e, w)
    | None => (Throw (TypeError "not an element"), w)
    end.

Definition update_element (n : DomNode) (f : Element → Element) : Js unit :=
  fun w =>
    match dom_elements w !! nodeId n with
    | Some e =>
        (Normal tt, with_elements (<[nodeId n := f e]> (dom_elements w)) w)
    | None => (Throw (TypeError "not an element"), w)
    end.

Definition put_attribute (k v : string) (e : Element) : Element :=
  {| classList := classList e; attributes := <[k := v]> (attributes e);
     style_display := style_display e |}.

Definition drop_attribute (k : string) (e : Element) : Element :=
  {| classList := classList e; attributes := delete k (attributes e);
     style_display := style_display e |}.

Definition put_display (v : string) (e : Element) : Element :=
  {| classList := classList e; attributes := attributes e;
     style_display := v |}.

Definition hasAttribute (n : DomNode) (k : string) : Js bool :=
  e <- element_of n ;; ret (has_attr k e).

Definition getAttribute (n : DomNode) (k : string) : Js (option string) :=
  e <- element_of n ;; ret (attributes e !! k).

Definition setAttribute (n : DomNode) (k v : string) : Js unit :=
  update_element n (put_attribute k v).

Definition removeAttribute (n : DomNode) (k : string) : Js unit :=
  update_element n (drop_attribute k).

Definition set_style_display (n : DomNode) (v : string) : Js unit :=
  update_element n (put_display v).

(** [node.nodeType === Node.ELEMENT_NODE] *)
Definition is_element_node (n : DomNode) : Js bool :=
  fun w =>
    (Normal (match dom_elements w !! nodeId n with
             | Some _ => true | None => false end), w).

(** [node.classList.contains(c)] *)
Definition classList_contains (n : DomNode) (c : string) : Js bool :=
  e <- element_of n ;; ret (has_class c e).

Definition selects (els : gmap nat Element) (sel : Selector) (n : DomNode)
  : bool :=
  match els !! nodeId n with
  | Some e => matches sel e
  | None => false
  end.

(** [root.querySelectorAll(sel)]: the matching elements below [root], in
    document order, as a static list. *)
Definition querySelectorAll (root : DomNode) (sel : Selector)
  : Js (list DomNode) :=
  fun w =>
    (Normal (List.filter (selects (dom_elements w) sel) (descendants root)), w).

(** [root.querySelector(sel)]: the first match, or null. *)
Definition querySelector (root : DomNode) (sel : Selector)
  : Js (option DomNode) :=
  l <- querySelectorAll root sel ;; ret (head l).

Definition document_querySelectorAll (sel : Selector) : Js (list DomNode) :=
  fun w => querySelectorAll (document w) sel w.

(** ** browser.storage.local

    Each call consumes one entry of the fault script; on [true] the promise
    rejects. An empty script means no fault. Every call is logged. *)

Definition next_fault (w : World) : bool * list bool :=
  match faults w with
  | [] => (false, [])
  | b :: rest => (b, rest)
  end.

(** [(await browser.storage.local.get(key))[key]]; [None] is undefined. *)
Definition browser_storage_local_get : Js (option Blocklist) :=
  fun w =>
    let w' := with_storage (persisted w) (snd (next_fault w))
                (storage_calls w ++ [LocalGet])%list w in
    if fst (next_fault w) then (Throw StorageError, w')
    else (Normal (persisted w), w').

(** [await browser.storage.local.set({ [key]: value })] *)
Definition browser_storage_local_set (value : Blocklist) : Js unit :=
  fun w =>
    let calls := (storage_calls w ++ [LocalSet value])%list in
    if fst (next_fault w)
    then (Throw StorageError,
          with_storage (persisted w) (snd (next_fault w)) calls w)
    else (Normal tt, with_storage (Some value) (snd (next_fault w)) calls w).

Module BoothShopStorage.

Definition getAllBlocked : Js Blocklist :=
  try_catch
    (result <- browser_storage_local_get ;;
     ret (match result with Some blocked => blocked | None => ∅ end))
    (fun error => console_error "Failed to get blocked shops:" ;; ret ∅).

Definition isBlocked (shopId : string) : Js bool :=
  blocked <- getAllBlocked ;;
  ret (js_in shopId blocked).

Definition blockShop (shopId shopName reason : string) : Js bool :=
  try_catch
    (blocked <- getAllBlocked ;;
     now <- Date_now ;;
     let blocked :=
       js_assign shopId
         {| name := shopName; reason := reason; timestamp := now |}
         blocked in
     browser_storage_local_set blocked ;;
     ret true)
    (fun error => console_error "Failed to block shop:" ;; ret false).

Definition unblockShop (shopId : string) : Js bool :=
  try_catch
    (blocked <- getAllBlocked ;;
     let blocked := js_delete shopId blocked in
     browser_storage_local_set blocked ;;
     ret true)
    (fun error => console_error "Failed to unblock shop:" ;; ret false).

(** [blocked[shopId] || null]; [Undefined] stands for null here. *)
Definition getShopInfo (shopId : string) : Js (PropValue ShopRecord) :=
  blocked <- getAllBlocked ;;
  ret (js_get shopId blocked).

Definition set_reason (r : string) (rec : ShopRecord) : ShopRecord :=
  {| name := name rec; reason := r; timestamp := timestamp rec |}.

(** [if (blocked[shopId])] holds for an own record and for an inherited
    builtin alike (both are objects). In the second case the assignment
    of [.reason] lands on the builtin, outside the blocklist, and the
    own properties of [blocked] stay as they were. *)
Definition updateReason (shopId reason : string) : Js bool :=
  try_catch
    (blocked <- getAllBlocked ;;
     match js_get shopId blocked with
     | Own rec =>
         let blocked := <[shopId := set_reason reason rec]> blocked in
         browser_storage_local_set blocked ;;
         ret true
     | Builtin =>
         browser_storage_local_set blocked ;;
         ret true
     | Undefined => ret false
     end)
    (fun error => console_error "Failed to update reason:" ;; ret false).

End BoothShopStorage.

(** ** The content script *)

Record StorageChange := {
  oldValue : option Blocklist;
  newValue : option Blocklist
}.

(** The [changes] object of storage.onChanged, as far as the script reads
    it: the entry for the key [blockedShops], if that key changed. *)
Record Changes := { blockedShops : option StorageChange }.

Record MutationRecord := { addedNodes : list DomNode }.

(** What the MutationObserver callback closes over: the value the promise
    [blockedShopsPromise] settled to. *)
Record Observer := { blockedShopsPromise : Blocklist }.

(** A fragment of the URL parser, for the examples: an absolute [https]
    URL whose host is written with lower-case letters, digits, [-], [_] and
    dots, with no port and no credentials. Whatever lies outside the
    fragment is answered like a string the parser rejects. *)
Fixpoint host_part (s : string) : string :=
  match s with
  | EmptyString => EmptyString
  | String c rest =>
      if Ascii.eqb c "/" || Ascii.eqb c "?" || Ascii.eqb c "#"
      then EmptyString else String c (host_part rest)
  end.

Definition host_char (c : ascii) : bool :=
  let n := nat_of_ascii c in
  (97 <=? n)%nat && (n <=? 122)%nat
  || (48 <=? n)%nat && (n <=? 57)%nat
  || Ascii.eqb c "-" || Ascii.eqb c "_" || Ascii.eqb c ".".

Fixpoint host_chars (s : string) : bool :=
  match s with
  | EmptyString => true
  | String c rest => host_char c && host_chars rest
  end.

Definition sample_URL_hostname (url : string) : option string :=
  if String.prefix "https://" url
  then let h := host_part (String.substring 8 (String.length url - 8) url) in
       if negb (String.eqb h "") && host_chars h then Some h else None
  else None.

Section ContentScript.

(** [new URL(url).hostname]; [None] when the constructor throws. *)
Variable URL_hostname : string → option string.

Definition new_URL_hostname (url : string) : Js string :=
  match URL_hostname url with
  | Some hostname => ret hostname
  | None => throw (TypeError "Invalid URL")
  end.

Definition reserved (sub : string) : bool :=
  String.eqb sub "accounts" || String.eqb sub "www".

Definition extractShopId (url : option string) : Js (option string) :=
  match url with
  | None => ret None
  | Some u =>
      if String.eqb u "" then ret None
      else
        try_catch
          (hostname <- new_URL_hostname u ;;
           match match_shop_host hostname with
           | Some sub => if reserved sub then ret None else ret (Some sub)
           | None => ret None
           end)
          (fun error => console_error "Failed to parse URL:" ;; ret None)
  end.

Definition getShopIdFromItemCard (itemCard : DomNode)
  : Js (option string) :=
  shopLink <- querySelector itemCard (ByClass "item-card__shop-name-anchor") ;;
  match shopLink with
  | None => ret None
  | Some link =>
      href <- getAttribute link "href" ;;
      extractShopId href
  end.

Definition hideItemCard (itemCard : DomNode) : Js unit :=
  set_style_display itemCard "none" ;;
  setAttribute itemCard "data-blocked-shop" "true".

Definition showItemCard (itemCard : DomNode) : Js unit :=
  set_style_display itemCard "" ;;
  removeAttribute itemCard "data-blocked-shop".

(** [blockedShops] is always an object here, so the test
    [blockedShops && ...] reduces to the [in] test. *)
Definition processItemCard (itemCard : DomNode) (blockedShops : Blocklist)
  : Js unit :=
  processed <- hasAttribute itemCard "data-shop-blocker-processed" ;;
  if processed then ret tt
  else
    setAttribute itemCard "data-shop-blocker-processed" "true" ;;
    shopId <- getShopIdFromItemCard itemCard ;;
    match shopId with
    | None => ret tt
    | Some id =>
        if String.eqb id "" then ret tt
        else
          setAttribute itemCard "data-shop-id" id ;;
          if js_in id blockedShops then hideItemCard itemCard else ret tt
    end.

Definition processAllItemCards : Js unit :=
  blockedShops <- BoothShopStorage.getAllBlocked ;;
  itemCards <- document_querySelectorAll (ByClass "item-card") ;;
  forEach itemCards
    (fun itemCard => call_async (processItemCard itemCard blockedShops)).

(** [observeNewItems]: the promise is created once, here. *)
Definition observeNewItems : Js Observer :=
  blockedShops <- BoothShopStorage.getAllBlocked ;;
  ret {| blockedShopsPromise := blockedShops |}.

(** The MutationObserver callback. *)
Definition observer_callback (observer : Observer)
    (mutations : list MutationRecord) : Js unit :=
  let blockedShops := blockedShopsPromise observer in
  forEach mutations (fun mutation =>
    forEach (addedNodes mutation) (fun node =>
      is_element <- is_element_node node ;;
      if is_element then
        is_card <- classList_contains node "item-card" ;;
        (if is_card then call_async (processItemCard node blockedShops)
         else ret tt) ;;
        itemCards <- querySelectorAll node (ByClass "item-card") ;;
        forEach itemCards
          (fun itemCard => call_async (processItemCard itemCard blockedShops))
      else ret tt)).

(** The storage.onChanged listener installed by [observeStorageChanges]. *)
Definition storage_listener (changes : Changes) (areaName : string)
  : Js unit :=
  if negb (String.eqb areaName "local") then ret tt
  else
    match blockedShops changes with
    | None => ret tt
    | Some change =>
        let newBlockedShops :=
          match newValue change with Some b => b | None => ∅ end in
        itemCards <-
          document_querySelectorAll (ByClassAttr "item-card" "data-shop-id") ;;
        forEach itemCards (fun itemCard =>
          shopId <- getAttribute itemCard "data-shop-id" ;;
          match shopId with
          | None => ret tt
          | Some id =>
              if String.eqb id "" then ret tt
              else if js_in id newBlockedShops then hideItemCard itemCard
              else showItemCard itemCard
          end)
    end.

(** [init], for a page whose [window.location.hostname] is given. *)
Definition isItemListPage (hostname : string) : bool :=
  String.eqb hostname "booth.pm"
  || String.eqb
       (String.substring (String.length hostname - 9) 9 hostname)
       ".booth.pm".

Definition init (location_hostname : string) : Js (option Observer) :=
  if isItemListPage location_hostname then
    processAllItemCards ;;
    observer <- observeNewItems ;;
    ret (Some observer)
  else ret None.

End ContentScript.

(** ** The browser delivering a change

    After [storage.local.set] has stored a value, the browser calls the
    listener with the area [local] and the old and new value of the key. *)

Definition deliver_change (old : option Blocklist) : Js unit :=
  fun w =>
    storage_listener
      {| blockedShops := Some {| oldValue := old; newValue := persisted w |} |}
      "local" w.

(** A store operation run in some context, followed by the listener's pass
    in the page when the operation wrote the storage area. *)
Definition then_reconcile (operation : Js bool) : Js bool :=
  fun w =>
    (ok <- operation ;;
     (if ok then deliver_change (persisted w) else ret tt) ;;
     ret ok) w.

(** The blocklist a stored value stands for: what [getAllBlocked] makes of
    it ([result[key] || {}]). *)
Definition blocklist_of (stored : option Blocklist) : Blocklist :=
  match stored with Some blocked => blocked | None => ∅ end.

(** Whether the [i]-th storage call from now on rejects. *)
Definition fault_at (i : nat) (w : World) : bool := nth i (faults w) false.

(** What [getAllBlocked] returns in a world, and what it logs: the stored
    blocklist, or the empty one with a console line when the read rejects. *)
Definition read_view (w : World) : Blocklist :=
  if fault_at 0 w then ∅ else blocklist_of (persisted w).

Definition read_log (w : World) : list string :=
  if fault_at 0 w then ["Failed to get blocked shops:"] else [].

(** The world after a read and a write of [value]; the write takes effect
    unless it rejects, in which case [line] is logged. *)
Definition after_read_write (value : Blocklist) (line : string) (w : World)
  : World :=
  with_console
    (console w ++ read_log w ++ (if fault_at 1 w then [line] else []))%list
    (with_storage (if fault_at 1 w then persisted w else Some value)
       (drop 2 (faults w))
       (storage_calls w ++ [LocalGet; LocalSet value])%list w).

(** The world after a read alone. *)
Definition after_read (w : World) : World :=
  with_console (console w ++ read_log w)%list
    (with_storage (persisted w) (drop 1 (faults w))
       (storage_calls w ++ [LocalGet])%list w).

(** No scripted storage call rejects. *)
Definition no_faults (w : World) : Prop := Forall (λ b, b = false) (faults w).

(** The hide effect as the design document defines it: inline display
    [none] together with the blocked marker. *)
Definition hidden (e : Element) : bool :=
  String.eqb (style_display e) "none" && has_attr "data-blocked-shop" e.

(** The element stored for a node, if the node is an element. *)
Definition element_at (w : World) (n : DomNode) : option Element :=
  dom_elements w !! nodeId n.

(** A non-empty string the URL constructor rejects (a relative or a
    malformed URL). *)
Definition unparsable (URL_hostname : string → option string)
    (url : option string) : bool :=
  match url with
  | Some u =>
      negb (String.eqb u "")
      && match URL_hostname u with Some _ => false | None => true end
  | None => false
  end.

(** What [hideItemCard] and [showItemCard] make of an element. *)
Definition hide_element (e : Element) : Element :=
  put_attribute "data-blocked-shop" "true" (put_display "none" e).

Definition show_element (e : Element) : Element :=
  drop_attribute "data-blocked-shop" (put_display "" e).

(** The shop link of a card: the first element below it that carries the
    anchor class ([querySelector] on the card). *)
Definition shop_link (els : gmap nat Element) (itemCard : DomNode)
  : option DomNode :=
  head (List.filter (selects els (ByClass "item-card__shop-name-anchor"))
          (descendants itemCard)).

(** What a first classification makes of an element, given the shop id
    read from its link and the blocklist it is classified against. *)
Definition classified (blockedShops : Blocklist) (shopId : option string)
    (e : Element) : Element :=
  let e1 := put_attribute "data-shop-blocker-processed" "true" e in
  match shopId with
  | None => e1
  | Some id =>
      if String.eqb id "" then e1
      else
        let e2 := put_attribute "data-shop-id" id e1 in
        if js_in id blockedShops then hide_element e2 else e2
  end.

(** What one step of the listener's loop makes of an annotated card. *)
Definition reconciled (newBlockedShops : Blocklist) (e : Element) : Element :=
  match attributes e !! "data-shop-id" with
  | None => e
  | Some id =>
      if String.eqb id "" then e
      else if js_in id newBlockedShops then hide_element e
      else show_element e
  end.

(** The nodes the listener selects: [.item-card[data-shop-id]] in the
    document. *)
Definition annotated_cards (w : World) : list DomNode :=
  List.filter (selects (dom_elements w) (ByClassAttr "item-card" "data-shop-id"))
    (descendants (document w)).

(** Two element stores agree on what the search for shop links reads:
    class lists and [href] attributes. *)
Definition same_links (els1 els2 : gmap nat Element) : Prop :=
  ∀ i, (classList <$> els1 !! i) = (classList <$> els2 !! i)
       ∧ ((λ e, attributes e !! "href") <$> els1 !! i)
         = ((λ e, attributes e !! "href") <$> els2 !! i).

(** A world with an empty page and an empty storage area. *)
Definition blank_world : World :=
  {| document := Node 0 []; dom_elements := ∅; console := [];
     persisted := None; faults := []; storage_calls := []; clock := 0 |}.

(** Blocking a shop and then unblocking it, each followed by the
    listener's pass in the page. *)
Definition block_then_unblock (shopId shopName why : string) : Js bool :=
  then_reconcile (BoothShopStorage.blockShop shopId shopName why) ;;
  then_reconcile (BoothShopStorage.unblockShop shopId).

(** The cards the observer callback finds for one added node: the node
    itself when it is an item card, then the item cards below it. *)
Definition discovered_in (els : gmap nat Element) (node : DomNode)
  : list DomNode :=
  match els !! nodeId node with
  | None => []
  | Some e =>
      (if has_class "item-card" e then [node] else [])
      ++ List.filter (selects els (ByClass "item-card")) (descendants node)
  end.

(** The cards found for a whole batch, in the order the callback meets
    them. *)
Definition discovered (els : gmap nat Element)
    (mutations : list MutationRecord) : list DomNode :=
  flat_map (λ mutation, flat_map (discovered_in els) (addedNodes mutation))
    mutations.

(** [w'] is [w] after some classification work: the storage area, the
    document and the clock are the same, and the element stores agree on
    class lists and [href] attributes. *)
Definition page_step (w w' : World) : Prop :=
  document w' = document w
  ∧ persisted w' = persisted w
  ∧ faults w' = faults w
  ∧ storage_calls w' = storage_calls w
  ∧ clock w' = clock w
  ∧ same_links (dom_elements w) (dom_elements w').

(** One call of [processItemCard] from a loop, its promise dropped. *)
Definition classify (URL_hostname : string → option string)
    (snapshot : Blocklist) (itemCard : DomNode) : Js unit :=
  call_async (processItemCard URL_hostname itemCard snapshot).

(** ** Sample pages

    Node 1 is an item card whose shop link, node 2, points to [href]. *)
Definition anchor_element (href : string) : Element :=
  {| classList := ["item-card__shop-name-anchor"];
     attributes := {[ "href" := href ]};
     style_display := "" |}.

Definition card_element (attrs : gmap string string) (display : string)
  : Element :=
  {| classList := ["item-card"]; attributes := attrs;
     style_display := display |}.

Definition card_node : DomNode := Node 1 [Node 2 []].

Definition page_with_card (card : Element) (href : string) : World :=
  {| document := Node 0 [card_node];
     dom_elements := {[ 1%nat := card; 2%nat := anchor_element href ]};
     console := []; persisted := None; faults := []; storage_calls := [];
     clock := 0 |}.

Definition sample_record : ShopRecord :=
  {| name := "Shop"; reason := "spam"; timestamp := 1700000000000 |}.

(** A world with an empty page, a given stored blocklist and a given script
    of storage faults. *)
Definition store_world (stored : option Blocklist) (script : list bool)
  : World :=
  {| document := Node 0 []; dom_elements := ∅; console := [];
     persisted := stored; faults := script; storage_calls := [];
     clock := 1700000000999 |}.

(** The blocklist in storage after an operation has run in [w]. *)
Definition stored_after {A} (operation : Js A) (w : World) : Blocklist :=
  blocklist_of (persisted (snd (operation w))).

(** ** The shop page script

    The script that adds the block button to a shop's own page. What it
    reads from the host page is given by a [Host]; its module variables,
    the container it builds, the alerts it shows and the world of the
    storage area make up a [Page]. The script's functions pass the page
    along; the [async] ones return the page their promise settles with. *)

Module ShopPage.

Inductive Handler := HandleBlock | HandleUnblock.

(** The button of [createBlockButton], with the click listeners added to
    it. *)
Record Button := {
  data_blocked : string;
  textContent : string;
  backgroundColor : string;
  click_listeners : list Handler
}.

(** The children of the container: the button, and the memo
    ([div.booth-shop-blocker-memo]) that shows a reason. *)
Inductive Widget :=
  | ButtonWidget (button : Button)
  | MemoWidget (reason : string).

(** What [querySelector('.shop-global-nav__follow-button, .shop-global-nav')]
    finds. *)
Inductive Target := FollowButton | GlobalNav.

Record Host := {
  location_hostname : string;       (* window.location.hostname *)
  shopNameElement : option string;  (* textContent.trim() of the first
                                       .shop-name-label or
                                       .home-link-container__nickname *)
  insertionPoint : option Target
}.

Inductive Alert :=
  | AlertBlocked         (* ショップをブロックしました *)
  | AlertBlockFailed     (* ブロックに失敗しました *)
  | AlertUnblocked       (* ブロックを解除しました *)
  | AlertUnblockFailed.  (* ブロック解除に失敗しました *)

Record Page := {
  currentShopId : option string;    (* null until set *)
  currentShopName : option string;
  container : option (list Widget); (* .booth-shop-blocker-container *)
  placement : option Target;        (* where the container was inserted *)
  alerts : list Alert;
  warnings : list string;           (* console.warn *)
  world : World
}.

Definition with_shop (id name : string) (p : Page) : Page :=
  {| currentShopId := Some id; currentShopName := Some name;
     container := container p; placement := placement p;
     alerts := alerts p; warnings := warnings p; world := world p |}.

Definition with_container (kids : list Widget) (p : Page) : Page :=
  {| currentShopId := currentShopId p; currentShopName := currentShopName p;
     container := Some kids; placement := placement p;
     alerts := alerts p; warnings := warnings p; world := world p |}.

Definition with_placement (target : Target) (p : Page) : Page :=
  {| currentShopId := currentShopId p; currentShopName := currentShopName p;
     container := container p; placement := Some target;
     alerts := alerts p; warnings := warnings p; world := world p |}.

Definition alert (a : Alert) (p : Page) : Page :=
  {| currentShopId := currentShopId p; currentShopName := currentShopName p;
     container := container p; placement := placement p;
     alerts := alerts p ++ [a]; warnings := warnings p; world := world p |}.

Definition console_warn (line : string) (p : Page) : Page :=
  {| currentShopId := currentShopId p; currentShopName := currentShopName p;
     container := container p; placement := placement p;
     alerts := alerts p; warnings := warnings p ++ [line];
     world := world p |}.

Definition with_world (w : World) (p : Page) : Page :=
  {| currentShopId := currentShopId p; currentShopName := currentShopName p;
     container := container p; placement := placement p;
     alerts := alerts p; warnings := warnings p; world := w |}.

Definition getCurrentShopInfo (host : Host) (p : Page) : bool * Page :=
  match match_shop_host (location_hostname host) with
  | Some sub =>
      if reserved sub then (false, p)
      else
        (true,
         with_shop sub
           (match shopNameElement host with
            | Some text => text
            | None => sub
            end) p)
  | None => (false, p)
  end.

Definition createBlockButton (isBlocked : bool) : Button :=
  {| data_blocked := if isBlocked then "true" else "false";
     textContent :=
       if isBlocked then "🔓 ブロック解除" else "🚫 このショップをブロック";
     backgroundColor := if isBlocked then "#666" else "#e74a31";
     click_listeners := [] |}.

Definition addEventListener (handler : Handler) (button : Button) : Button :=
  {| data_blocked := data_blocked button;
     textContent := textContent button;
     backgroundColor := backgroundColor button;
     click_listeners := click_listeners button ++ [handler] |}.

(** [createMemoDisplay]: null for an empty reason. *)
Definition createMemoDisplay (reason : string) : option Widget :=
  if String.eqb reason "" then None else Some (MemoWidget reason).

Definition is_button (widget : Widget) : bool :=
  match widget with ButtonWidget _ => true | MemoWidget _ => false end.

Definition is_memo (widget : Widget) : bool :=
  match widget with ButtonWidget _ => false | MemoWidget _ => true end.

(** [found.remove()] for the first widget that [querySelector] finds. *)
Fixpoint remove_first (sel : Widget → bool) (kids : list Widget)
  : list Widget :=
  match kids with
  | [] => []
  | widget :: rest =>
      if sel widget then rest else widget :: remove_first sel rest
  end.

(** The button and the memo that both [updateUI] and [injectUI] append. *)
Definition append_controls (isBlocked : bool) (reason : string)
    (kids : list Widget) : list Widget :=
  let button :=
    addEventListener (if isBlocked then HandleUnblock else HandleBlock)
      (createBlockButton isBlocked) in
  let kids := kids ++ [ButtonWidget button] in
  if isBlocked && negb (String.eqb reason "") then
    match createMemoDisplay reason with
    | Some memoDiv => kids ++ [memoDiv]
    | None => kids
    end
  else kids.

Definition updateUI (isBlocked : bool) (reason : string) (p : Page) : Page :=
  match container p with
  | None => p
  | Some kids =>
      let kids := remove_first is_memo (remove_first is_button kids) in
      with_container (append_controls isBlocked reason kids) p
  end.

(** [handleBlock], for the answer given to its prompt (null on cancel). The
    button that calls it exists only once the shop id and name are set. *)
Definition handleBlock (answer : option string) (p : Page) : Page :=
  match answer, currentShopId p, currentShopName p with
  | Some reason, Some shopId, Some shopName =>
      match BoothShopStorage.blockShop shopId shopName reason (world p) with
      | (Normal true, w) =>
          updateUI true reason (alert AlertBlocked (with_world w p))
      | (Normal false, w) => alert AlertBlockFailed (with_world w p)
      | (Throw _, w) => with_world w p
      end
  | _, _, _ => p
  end.

(** [handleUnblock], for the answer given to its confirmation. *)
Definition handleUnblock (confirmed : bool) (p : Page) : Page :=
  match confirmed, currentShopId p with
  | true, Some shopId =>
      match BoothShopStorage.unblockShop shopId (world p) with
      | (Normal true, w) =>
          updateUI false "" (alert AlertUnblocked (with_world w p))
      | (Normal false, w) => alert AlertUnblockFailed (with_world w p)
      | (Throw _, w) => with_world w p
      end
  | _, _ => p
  end.

(** The reason shown for a shop found by [getShopInfo] or in a new value:
    the record's reason; a builtin has no such property, and the undefined
    this gives is as falsy as the empty string. *)
Definition reason_of (info : PropValue ShopRecord) : string :=
  match info with
  | Own rec => reason rec
  | Builtin | Undefined => ""
  end.

Definition injectUI (host : Host) (p : Page) : Page :=
  let (found, p) := getCurrentShopInfo host p in
  if negb found then p
  else
    match container p, insertionPoint host, currentShopId p with
    | Some _, _, _ => p
    | None, None, _ =>
        console_warn "Could not find insertion point for shop blocker UI" p
    | None, Some target, Some shopId =>
        match BoothShopStorage.getShopInfo shopId (world p) with
        | (Normal shopInfo, w) =>
            let isBlocked :=
              match shopInfo with Undefined => false | _ => true end in
            with_placement target
              (with_container
                 (append_controls isBlocked (reason_of shopInfo) [])
                 (with_world w p))
        | (Throw _, w) => with_world w p
        end
    | None, Some _, None => p
    end.

(** The storage.onChanged listener of the shop page. *)
Definition storage_listener (changes : Changes) (areaName : string)
    (p : Page) : Page :=
  if negb (String.eqb areaName "local") then p
  else
    match blockedShops changes, currentShopId p with
    | Some change, Some shopId =>
        if String.eqb shopId "" then p
        else
          let newBlockedShops :=
            match newValue change with Some b => b | None => ∅ end in
          let isBlocked := js_in shopId newBlockedShops in
          let reason :=
            if isBlocked then reason_of (js_get shopId newBlockedShops)
            else "" in
          updateUI isBlocked reason p
    | _, _ => p
    end.

Definition init (host : Host) (p : Page) : Page := injectUI host p.

(** The page before the script has run. *)
Definition fresh (w : World) : Page :=
  {| currentShopId := None; currentShopName := None; container := None;
     placement := None; alerts := []; warnings := []; world := w |}.

(** The button the container shows, if it shows exactly one. *)
Definition shown_button (p : Page) : option Button :=
  match container p with
  | Some kids =>
      match List.filter is_button kids with
      | [ButtonWidget button] => Some button
      | _ => None
      end
  | None => None
  end.

(** The reason the container shows in a memo, if it shows exactly one. *)
Definition shown_memo (p : Page) : option string :=
  match container p with
  | Some kids =>
      match List.filter is_memo kids with
      | [MemoWidget reason] => Some reason
      | _ => None
      end
  | None => None
  end.

(** A container as the script builds it: at most one button and at most
    one memo. *)
Definition script_built (p : Page) : Prop :=
  match container p with
  | Some kids =>
      (length (List.filter is_button kids) <= 1)%nat
      ∧ (length (List.filter is_memo kids) <= 1)%nat
  | None => True
  end.

End ShopPage.

(** ** The popup script

    The popup lists the blocked shops. Its page is the list element
    [#shopList] with its children, the two elements whose inline display
    it toggles, the number it writes to [#blockedCount], the pending
    timers, the alerts shown and the world of the storage area. *)

Module Popup.

(** A [div.shop-card]. [holes] are the texts spliced into the markup
    assigned to its [innerHTML], in the order of the template. *)
Record ShopCard := {
  card_node : nat;          (* the identity of the element *)
  data_shop_id : string;
  holes : list string;
  style_opacity : string;
  style_transform : string
}.

(** A child of the list element: a card, or the [div.error] of the
    failure message. *)
Inductive Child :=
  | CardChild (card : ShopCard)
  | ErrorDiv.

Inductive Alert := AlertUnblockFailed.  (* ブロック解除に失敗しました *)

Record Page := {
  shopList : list Child;
  shopList_display : string;
  emptyState_display : string;
  blockedCount : nat;       (* the count written to #blockedCount *)
  timers : list nat;        (* the cards a pending timer will remove *)
  next_node : nat;          (* the identity of the next element created *)
  alerts : list Alert;
  world : World
}.

Definition with_world (w : World) (p : Page) : Page :=
  {| shopList := shopList p; shopList_display := shopList_display p;
     emptyState_display := emptyState_display p;
     blockedCount := blockedCount p; timers := timers p;
     next_node := next_node p; alerts := alerts p; world := w |}.

Definition with_shopList (kids : list Child) (p : Page) : Page :=
  {| shopList := kids; shopList_display := shopList_display p;
     emptyState_display := emptyState_display p;
     blockedCount := blockedCount p; timers := timers p;
     next_node := next_node p; alerts := alerts p; world := world p |}.

Definition alert (a : Alert) (p : Page) : Page :=
  {| shopList := shopList p; shopList_display := shopList_display p;
     emptyState_display := emptyState_display p;
     blockedCount := blockedCount p; timers := timers p;
     next_node := next_node p; alerts := alerts p ++ [a];
     world := world p |}.

Definition is_card (child : Child) : bool :=
  match child with CardChild _ => true | ErrorDiv => false end.

(** [updateUI]: count the cards, show the count, and show either the list
    or the empty state. *)
Definition updateUI (p : Page) : Page :=
  let count := length (List.filter is_card (shopList p)) in
  {| shopList := shopList p;
     shopList_display := if Nat.eqb count 0 then "none" else "block";
     emptyState_display := if Nat.eqb count 0 then "block" else "none";
     blockedCount := count; timers := timers p;
     next_node := next_node p; alerts := alerts p; world := world p |}.

(** [entries.sort((a, b) => b[1].timestamp - a[1].timestamp)]: the sort is
    stable, and for this comparator that fixes its result: later
    timestamps first, entries with equal timestamps in their given
    order. *)
Fixpoint insert_entry (x : string * ShopRecord)
    (sorted : list (string * ShopRecord)) : list (string * ShopRecord) :=
  match sorted with
  | [] => [x]
  | y :: rest =>
      if (timestamp (snd x) <? timestamp (snd y))%Z
      then y :: insert_entry x rest
      else x :: y :: rest
  end.

Definition sort_entries (entries : list (string * ShopRecord))
  : list (string * ShopRecord) :=
  foldr insert_entry [] entries.

Section Platform.

(** [formatDate] reads the local time zone. *)
Variable formatDate : Z → string.

(** [escapeHtml] goes through the HTML serializer. *)
Variable escapeHtml : string → string.

(** [Object.entries]: the own properties of the object, in property
    order. *)
Variable Object_entries : Blocklist → list (string * ShopRecord).

(** The value that the selector [.shop-card[data-shop-id="..."]] tests for
    once a shop id is spliced between its quotes; [None] when the result is
    no selector, and [querySelector] throws. *)
Variable spliced_value : string → option string.

Definition createShopCard (node : nat) (shopId : string)
    (shopData : ShopRecord) : ShopCard :=
  let shopUrl := "https://" +:+ shopId +:+ ".booth.pm/" in
  let displayName :=
    if String.eqb (name shopData) "" then shopId else name shopData in
  let why :=
    if String.eqb (reason shopData) "" then "（理由なし）"
    else reason shopData in
  let dateStr := formatDate (timestamp shopData) in
  {| card_node := node; data_shop_id := shopId;
     holes := [ escapeHtml shopUrl; escapeHtml displayName;
                escapeHtml displayName; escapeHtml shopId;
                escapeHtml shopId; escapeHtml why; dateStr ];
     style_opacity := ""; style_transform := "" |}.

(** The cards appended for the sorted entries, each a new element. *)
Fixpoint create_cards (node : nat) (entries : list (string * ShopRecord))
  : list Child :=
  match entries with
  | [] => []
  | (shopId, shopData) :: rest =>
      CardChild (createShopCard node shopId shopData)
      :: create_cards (S node) rest
  end.

(** [displayShopList]. (It also gives the unblock button of every card a
    click listener that calls [handleUnblock].) *)
Definition displayShopList (p : Page) : Page :=
  match browser_storage_local_get (world p) with
  | (Normal result, w) =>
      let blockedShops := blocklist_of result in
      let sortedShops := sort_entries (Object_entries blockedShops) in
      let cards := create_cards (next_node p) sortedShops in
      updateUI
        {| shopList := cards; shopList_display := shopList_display p;
           emptyState_display := emptyState_display p;
           blockedCount := blockedCount p; timers := timers p;
           next_node := next_node p + length cards; alerts := alerts p;
           world := w |}
  | (Throw _, w) =>
      with_shopList [ErrorDiv]
        (with_world (snd (console_error "Failed to load blocked shops:" w)) p)
  end.

Definition card_has_id (value : string) (child : Child) : bool :=
  match child with
  | CardChild card => String.eqb (data_shop_id card) value
  | ErrorDiv => false
  end.

(** The first child is restyled where [sel] holds. *)
Fixpoint fade_first (sel : Child → bool) (kids : list Child) : list Child :=
  match kids with
  | [] => []
  | child :: rest =>
      if sel child then
        match child with
        | CardChild card =>
            CardChild
              {| card_node := card_node card;
                 data_shop_id := data_shop_id card; holes := holes card;
                 style_opacity := "0";
                 style_transform := "translateX(-20px)" |}
            :: rest
        | ErrorDiv => child :: rest
        end
      else child :: fade_first sel rest
  end.

Definition found_node (sel : Child → bool) (kids : list Child) : option nat :=
  match List.filter sel kids with
  | CardChild card :: _ => Some (card_node card)
  | _ => None
  end.

Definition unblock_failed (w : World) (p : Page) : Page :=
  alert AlertUnblockFailed
    (with_world (snd (console_error "Failed to unblock shop:" w)) p).

(** [handleUnblock], for the answer given to its confirmation. *)
Definition handleUnblock (confirmed : bool) (shopId shopName : string)
    (p : Page) : Page :=
  if negb confirmed then p
  else
    match browser_storage_local_get (world p) with
    | (Throw _, w) => unblock_failed w p
    | (Normal result, w) =>
        let blockedShops := js_delete shopId (blocklist_of result) in
        match browser_storage_local_set blockedShops w with
        | (Throw _, w) => unblock_failed w p
        | (Normal _, w) =>
            match spliced_value shopId with
            | None => unblock_failed w p
            | Some value =>
                match found_node (card_has_id value) (shopList p) with
                | Some node =>
                    {| shopList :=
                         fade_first (card_has_id value) (shopList p);
                       shopList_display := shopList_display p;
                       emptyState_display := emptyState_display p;
                       blockedCount := blockedCount p;
                       timers := timers p ++ [node];
                       next_node := next_node p; alerts := alerts p;
                       world := w |}
                | None => with_world w p
                end
            end
        end
    end.

End Platform.


(** The storage.onChanged listener of the popup. *)
Definition storage_listener (formatDate : Z → string)
    (escapeHtml : string → string)
    (Object_entries : Blocklist → list (string * ShopRecord))
    (changes : Changes) (areaName : string) (p : Page) : Page :=
  if String.eqb areaName "local" then
    match blockedShops changes with
    | Some _ => displayShopList formatDate escapeHtml Object_entries p
    | None => p
    end
  else p.

(** The shop ids of the cards shown, in order. *)
Definition shown_ids (p : Page) : list string :=
  flat_map
    (λ child,
       match child with
       | CardChild card => [data_shop_id card]
       | ErrorDiv => []
       end)
    (shopList p).

(** The popup as its markup starts it. *)
Definition fresh (w : World) : Page :=
  {| shopList := []; shopList_display := ""; emptyState_display := "";
     blockedCount := 0; timers := []; next_node := 0; alerts := [];
     world := w |}.

End Popup.










(** The timer set for the card found, if one is found. *)
Definition scheduled (found : option nat) : list nat :=
  match found with Some node => [node] | None => [] end.

(** A popup over a stored blocklist of two shops. *)
Definition older_record : ShopRecord :=
  {| name := ""; reason := ""; timestamp := 1600000000000 |}.

Definition sample_blocklist : Blocklist :=
  {[ "foo" := older_record; "bar" := sample_record ]}.

Definition sample_popup (script : list bool) : Popup.Page :=
  Popup.fresh (store_world (Some sample_blocklist) script).


(** * Properties *)

(** ** The host pattern *)

Lemma split_at_dot_Some s before after :
  split_at_dot s = Some (before, after) ↔
  s = before +:+ String dot after ∧ dot_free before = true.
Proof.
  revert before after. induction s as [|c s IH]; intros before after; simpl.
  - split; [discriminate|]. intros [H _]. destruct before; discriminate.
  - destruct (Ascii.eqb c dot) eqn:Hc.
    + apply Ascii.eqb_eq in Hc. subst c. split.
      * intros [= <- <-]. split; reflexivity.
      * intros [H Hfree]. destruct before as [|b before]; simpl in *.
        -- injection H as ->. reflexivity.
        -- injection H as <- _. rewrite Ascii.eqb_refl in Hfree. discriminate.
    + destruct (split_at_dot s) as [[b a]|].
      * split.
        -- intros [= <- <-].
           destruct (proj1 (IH b a) eq_refl) as [-> Hfree].
           split; [reflexivity|]. simpl. rewrite Hc. exact Hfree.
        -- intros [H Hfree]. destruct before as [|c' before]; simpl in *.
           ++ injection H as -> _. rewrite Ascii.eqb_refl in Hc. discriminate.
           ++ injection H as <- ->. rewrite Hc in Hfree. simpl in Hfree.
              assert (Some (b, a) = Some (before, after)) as [= -> ->].
              { apply IH. split; [reflexivity|exact Hfree]. }
              reflexivity.
      * split; [discriminate|]. intros [H Hfree].
        destruct before as [|c' before]; simpl in *.
        -- injection H as -> _. rewrite Ascii.eqb_refl in Hc. discriminate.
        -- injection H as <- ->. rewrite Hc in Hfree. simpl in Hfree.
           assert (@None (string * string) = Some (before, after)) as Habs;
             [|discriminate].
           apply IH. split; [reflexivity|exact Hfree].
Qed.

(** The function computes the regular expression: [hostname] matches
    [^([^.]+)\.booth\.pm$] with group 1 equal to [sub] exactly when it is
    [sub] followed by [.booth.pm] and [sub] is a non-empty dot-free text. *)
Lemma match_shop_host_Some hostname sub :
  match_shop_host hostname = Some sub ↔
  hostname = sub +:+ ".booth.pm" ∧ sub ≠ "" ∧ dot_free sub = true.
Proof.
  unfold match_shop_host. split.
  - destruct (split_at_dot hostname) as [[b a]|] eqn:Hs; [|discriminate].
    destruct (String.eqb b "") eqn:Hb; simpl; [discriminate|].
    destruct (String.eqb a "booth.pm") eqn:Ha; [|discriminate].
    intros [= <-]. apply String.eqb_eq in Ha. subst a.
    apply split_at_dot_Some in Hs as [-> Hfree].
    apply String.eqb_neq in Hb. auto.
  - intros (-> & Hne & Hfree).
    assert (split_at_dot (sub +:+ ".booth.pm") = Some (sub, "booth.pm")) as ->.
    { apply split_at_dot_Some. auto. }
    apply String.eqb_neq in Hne. rewrite Hne. reflexivity.
Qed.

Lemma reserved_spec sub :
  reserved sub = true ↔ sub = "accounts" ∨ sub = "www".
Proof.
  unfold reserved. rewrite orb_true_iff, !String.eqb_eq. reflexivity.
Qed.

(** ** The identifier extractor *)

(** C2 (as amended). For a URL constructor that rejects the empty string,
    [extractShopId] never throws; it returns [sub] exactly when the URL's
    host is [sub.booth.pm] with [sub] a single non-empty label other than
    [accounts] and [www], and none for every other input; it leaves the
    world as it found it, except that an unparsable non-empty string adds
    one line to the console. *)
Theorem extractShopId_total
    (URL_hostname : string → option string) (url : option string) (w : World) :
  URL_hostname "" = None →
  ∃ r : option string,
    fst (extractShopId URL_hostname url w) = Normal r
    ∧ (∀ sub, r = Some sub ↔
         ∃ u, url = Some u
              ∧ URL_hostname u = Some (sub +:+ ".booth.pm")
              ∧ sub ≠ "" ∧ dot_free sub = true
              ∧ sub ≠ "accounts" ∧ sub ≠ "www")
    ∧ snd (extractShopId URL_hostname url w) =
        if unparsable URL_hostname url
        then with_console (console w ++ ["Failed to parse URL:"]) w
        else w.
Proof.
  intros Hempty. unfold extractShopId, unparsable.
  destruct url as [u|]; simpl.
  2:{ exists None. repeat split; try discriminate. intros (u & [=] & _). }
  destruct (String.eqb u "") eqn:Hu; simpl.
  { apply String.eqb_eq in Hu. subst u. exists None.
    repeat split; try discriminate.
    intros (u & [= <-] & Hh & _). congruence. }
  unfold try_catch, bind, new_URL_hostname.
  destruct (URL_hostname u) as [h|] eqn:Hh; simpl.
  2:{ exists None. repeat split; try discriminate.
      intros (u' & [= <-] & Hh' & _). congruence. }
  assert (Hdet : ∀ sub, URL_hostname u = Some (sub +:+ ".booth.pm") →
            sub ≠ "" → dot_free sub = true → match_shop_host h = Some sub).
  { intros sub Hh' Hne Hfree. rewrite Hh in Hh'. injection Hh' as ->.
    apply match_shop_host_Some. auto. }
  destruct (match_shop_host h) as [sub|] eqn:Hm.
  - apply match_shop_host_Some in Hm as (-> & Hne & Hfree).
    destruct (reserved sub) eqn:Hr; simpl.
    + exists None. repeat split; try discriminate.
      intros (u' & [= <-] & Hh' & Hne' & Hfree' & Ha & Hw).
      apply Hdet in Hh' as [= ->]; auto.
      apply reserved_spec in Hr. tauto.
    + exists (Some sub). repeat split.
      * intros [= <-]. exists u. repeat split; auto.
        -- intros ->. discriminate.
        -- intros ->. discriminate.
      * intros (u' & [= <-] & Hh' & Hne' & Hfree' & _).
        apply Hdet in Hh'; auto.
  - exists None. repeat split; try discriminate.
    intros (u' & [= <-] & Hh' & Hne & Hfree & _).
    apply Hdet in Hh'; [discriminate|auto..].
Qed.

Lemma extractShopId_total_witness :
  sample_URL_hostname "" = None
  ∧ ∃ r : option string,
      fst (extractShopId sample_URL_hostname
             (Some "https://foo.booth.pm/items/123") blank_world) = Normal r
      ∧ (∀ sub, r = Some sub ↔
           ∃ u, Some "https://foo.booth.pm/items/123" = Some u
                ∧ sample_URL_hostname u = Some (sub +:+ ".booth.pm")
                ∧ sub ≠ "" ∧ dot_free sub = true
                ∧ sub ≠ "accounts" ∧ sub ≠ "www")
      ∧ snd (extractShopId sample_URL_hostname
               (Some "https://foo.booth.pm/items/123") blank_world) =
          if unparsable sample_URL_hostname
               (Some "https://foo.booth.pm/items/123")
          then with_console (console blank_world ++ ["Failed to parse URL:"])
                 blank_world
          else blank_world.
Proof.
  split; [reflexivity|].
  apply (extractShopId_total sample_URL_hostname
           (Some "https://foo.booth.pm/items/123") blank_world).
  reflexivity.
Defined.

(** C2 as stated fails: a relative URL is answered with none, but not
    without a side effect, the catch clause writes to the console. *)
Lemma extractShopId_relative_url_logs :
  fst (extractShopId sample_URL_hostname (Some "/items/123") blank_world)
    = Normal None
  ∧ snd (extractShopId sample_URL_hostname (Some "/items/123") blank_world)
    ≠ blank_world.
Proof.
  split; [reflexivity|]. vm_compute. intros H. discriminate H.
Qed.

(** ** Worlds *)

Lemma with_elements_id w : with_elements (dom_elements w) w = w.
Proof. destruct w; reflexivity. Qed.

Lemma with_console_nil w : with_console (console w ++ []) w = w.
Proof. destruct w; unfold with_console; simpl. rewrite app_nil_r. reflexivity. Qed.

(** Storing an element where it already is changes nothing. *)
Lemma with_elements_insert_id w i e :
  dom_elements w !! i = Some e →
  with_elements (<[i := e]> (dom_elements w)) w = w.
Proof. intros H. rewrite insert_id by exact H. apply with_elements_id. Qed.

(** Unfolds the monad and the element operations and reduces the matches
    this exposes. *)
Ltac js_unfold :=
  cbv beta iota delta
    [bind ret throw try_catch call_async element_of update_element
     hasAttribute getAttribute setAttribute removeAttribute
     set_style_display is_element_node classList_contains querySelector
     querySelectorAll document_querySelectorAll console_error Date_now
     fst snd].

Tactic Notation "js_unfold" "in" hyp(H) :=
  cbv beta iota delta
    [bind ret throw try_catch call_async element_of update_element
     hasAttribute getAttribute setAttribute removeAttribute
     set_style_display is_element_node classList_contains querySelector
     querySelectorAll document_querySelectorAll console_error Date_now
     fst snd] in H.

(** ** One element at a time *)

Lemma update_element_run n f w e :
  dom_elements w !! nodeId n = Some e →
  update_element n f w
  = (Normal tt, with_elements (<[nodeId n := f e]> (dom_elements w)) w).
Proof. intros H. unfold update_element. rewrite H. reflexivity. Qed.

Lemma hideItemCard_run n w e :
  dom_elements w !! nodeId n = Some e →
  hideItemCard n w
  = (Normal tt,
     with_elements (<[nodeId n := hide_element e]> (dom_elements w)) w).
Proof.
  intros H. unfold hideItemCard, bind, set_style_display, setAttribute.
  rewrite (update_element_run _ _ _ _ H).
  erewrite update_element_run by (simpl; apply lookup_insert_eq).
  simpl. rewrite insert_insert_eq. reflexivity.
Qed.

Lemma showItemCard_run n w e :
  dom_elements w !! nodeId n = Some e →
  showItemCard n w
  = (Normal tt,
     with_elements (<[nodeId n := show_element e]> (dom_elements w)) w).
Proof.
  intros H. unfold showItemCard, bind, set_style_display, removeAttribute.
  rewrite (update_element_run _ _ _ _ H).
  erewrite update_element_run by (simpl; apply lookup_insert_eq).
  simpl. rewrite insert_insert_eq. reflexivity.
Qed.

Lemma hidden_hide_element e : hidden (hide_element e) = true.
Proof.
  unfold hidden, hide_element, has_attr; simpl.
  rewrite lookup_insert_eq. reflexivity.
Qed.

Lemma hidden_show_element e : hidden (show_element e) = false.
Proof. reflexivity. Qed.

Section Classifier.

Variable URL_hostname : string → option string.

(** The extractor returns normally; its answer does not depend on the
    world, and the world it leaves differs at most by a console line. *)
Lemma extractShopId_run url w :
  ∃ r, (∀ w', fst (extractShopId URL_hostname url w') = Normal r)
       ∧ snd (extractShopId URL_hostname url w) =
           if unparsable URL_hostname url
           then with_console (console w ++ ["Failed to parse URL:"]) w
           else w.
Proof.
  unfold extractShopId, unparsable.
  destruct url as [u|]; [|exists None; auto].
  destruct (String.eqb u ""); [exists None; auto|].
  unfold try_catch, bind, new_URL_hostname.
  destruct (URL_hostname u) as [h|]; simpl; [|exists None; auto].
  destruct (match_shop_host h) as [sub|]; [|exists None; auto].
  destruct (reserved sub); [exists None|exists (Some sub)]; auto.
Qed.

Lemma shop_link_element els itemCard link :
  shop_link els itemCard = Some link → is_Some (els !! nodeId link).
Proof.
  unfold shop_link. intros H.
  assert (In link (List.filter
                     (selects els (ByClass "item-card__shop-name-anchor"))
                     (descendants itemCard))) as Hin.
  { destruct (List.filter _ _); [discriminate|].
    injection H as ->. left. reflexivity. }
  apply filter_In in Hin as [_ Hsel]. unfold selects in Hsel.
  destruct (els !! nodeId link); [eauto|discriminate].
Qed.

(** Reading the shop id of a card returns normally and touches only the
    console. *)
Lemma getShopIdFromItemCard_run itemCard w :
  ∃ r lines,
    getShopIdFromItemCard URL_hostname itemCard w
    = (Normal r, with_console (console w ++ lines) w).
Proof.
  unfold getShopIdFromItemCard. js_unfold.
  fold (shop_link (dom_elements w) itemCard).
  destruct (shop_link (dom_elements w) itemCard) as [link|] eqn:Hl.
  - destruct (shop_link_element _ _ _ Hl) as [e He].
    js_unfold. rewrite He.
    destruct (extractShopId_run (attributes e !! "href") w) as (r & Hr & Hw).
    exists r. specialize (Hr w).
    destruct (extractShopId URL_hostname (attributes e !! "href") w)
      as [c w']. simpl in Hr, Hw. subst c.
    destruct (unparsable _ _); subst w'.
    + eexists. reflexivity.
    + exists []. rewrite with_console_nil. reflexivity.
  - exists None, []. rewrite with_console_nil. reflexivity.
Qed.

Lemma shop_link_same_links els1 els2 itemCard :
  same_links els1 els2 → shop_link els1 itemCard = shop_link els2 itemCard.
Proof.
  intros H. unfold shop_link. f_equal. apply filter_ext. intros n.
  unfold selects. destruct (H (nodeId n)) as [Hc _].
  destruct (els1 !! nodeId n) as [e1|], (els2 !! nodeId n) as [e2|];
    simpl in Hc; try discriminate; [|reflexivity].
  injection Hc as Hc. unfold matches, has_class. rewrite Hc. reflexivity.
Qed.

(** The shop id read from a card depends on the page only through class
    lists and [href] attributes. *)
Lemma getShopIdFromItemCard_same_links itemCard w1 w2 :
  same_links (dom_elements w1) (dom_elements w2) →
  fst (getShopIdFromItemCard URL_hostname itemCard w1)
  = fst (getShopIdFromItemCard URL_hostname itemCard w2).
Proof.
  intros H. unfold getShopIdFromItemCard. js_unfold.
  fold (shop_link (dom_elements w1) itemCard).
  fold (shop_link (dom_elements w2) itemCard).
  rewrite (shop_link_same_links _ _ itemCard H).
  destruct (shop_link (dom_elements w2) itemCard) as [link|] eqn:Hl;
    [|reflexivity].
  destruct (shop_link_element _ _ _ Hl) as [e2 He2].
  destruct (H (nodeId link)) as [_ Hh]. rewrite He2 in Hh |- *.
  destruct (dom_elements w1 !! nodeId link) as [e1|]; [|discriminate].
  simpl in Hh. injection Hh as ->.
  destruct (extractShopId_run (attributes e2 !! "href") w1) as (r & Hr & _).
  change (fst (extractShopId URL_hostname (attributes e2 !! "href") w1)
          = fst (extractShopId URL_hostname (attributes e2 !! "href") w2)).
  rewrite !Hr. reflexivity.
Qed.

Lemma same_links_put_attribute els i e k v :
  els !! i = Some e → k ≠ "href" →
  same_links (<[i := put_attribute k v e]> els) els.
Proof.
  intros He Hk j. destruct (decide (i = j)) as [<-|Hne].
  - rewrite lookup_insert_eq, He. simpl.
    rewrite lookup_insert_ne by exact Hk. auto.
  - rewrite lookup_insert_ne by exact Hne. auto.
Qed.

Lemma processItemCard_not_element itemCard blockedShops w :
  dom_elements w !! nodeId itemCard = None →
  processItemCard URL_hostname itemCard blockedShops w
  = (Throw (TypeError "not an element"), w).
Proof. intros H. unfold processItemCard. js_unfold. rewrite H. reflexivity. Qed.

Lemma processItemCard_processed itemCard blockedShops w e :
  dom_elements w !! nodeId itemCard = Some e →
  has_attr "data-shop-blocker-processed" e = true →
  processItemCard URL_hostname itemCard blockedShops w = (Normal tt, w).
Proof.
  intros H Hp. unfold processItemCard. js_unfold. rewrite H, Hp. reflexivity.
Qed.

(** A first classification: the only element written is the card, it
    becomes [classified] for the shop id read from its link, and the
    console receives what reading the link wrote. *)
Lemma processItemCard_first itemCard blockedShops w e :
  dom_elements w !! nodeId itemCard = Some e →
  has_attr "data-shop-blocker-processed" e = false →
  ∃ r lines,
    fst (getShopIdFromItemCard URL_hostname itemCard w) = Normal r
    ∧ processItemCard URL_hostname itemCard blockedShops w
      = (Normal tt,
         with_console (console w ++ lines)
           (with_elements
              (<[nodeId itemCard := classified blockedShops r e]>
                 (dom_elements w)) w)).
Proof.
  intros H Hp. unfold processItemCard. js_unfold.
  rewrite H; js_unfold. rewrite Hp; js_unfold. rewrite ?H; js_unfold.
  set (e1 := put_attribute "data-shop-blocker-processed" "true" e).
  set (w1 := with_elements (<[nodeId itemCard := e1]> (dom_elements w)) w).
  destruct (getShopIdFromItemCard_run itemCard w1) as (r & lines & Hrun).
  assert (fst (getShopIdFromItemCard URL_hostname itemCard w) = Normal r)
    as Hr.
  { rewrite <- (getShopIdFromItemCard_same_links itemCard w1 w).
    - rewrite Hrun. reflexivity.
    - apply same_links_put_attribute; [exact H|discriminate]. }
  exists r, lines. split; [exact Hr|]. rewrite Hrun.
  unfold classified. fold e1.
  destruct r as [id|]; [|reflexivity].
  destruct (String.eqb id ""); [reflexivity|].
  js_unfold. simpl. rewrite lookup_insert_eq.
  destruct (js_in id blockedShops).
  - erewrite hideItemCard_run by (simpl; apply lookup_insert_eq).
    simpl. rewrite !insert_insert_eq. reflexivity.
  - simpl. rewrite !insert_insert_eq. reflexivity.
Qed.

End Classifier.

(** ** The card classifier *)

Lemma classified_processed blockedShops shopId e :
  has_attr "data-shop-blocker-processed" (classified blockedShops shopId e)
  = true.
Proof.
  unfold classified, has_attr.
  destruct shopId as [id|]; simpl; [|by rewrite lookup_insert_eq].
  destruct (String.eqb id ""); simpl; [by rewrite lookup_insert_eq|].
  destruct (js_in id blockedShops); simpl.
  - rewrite lookup_insert_ne by discriminate.
    rewrite lookup_insert_ne by discriminate.
    by rewrite lookup_insert_eq.
  - rewrite lookup_insert_ne by discriminate.
    by rewrite lookup_insert_eq.
Qed.

(** C3. Classifying a card a second time, against any snapshot, is a no-op:
    the run that classifies twice ends in the same world, with the same
    outcome, as the run that classifies once. The reason is the processed
    mark: whatever the first classification finds, an element that went
    through it carries the mark afterwards. *)
Theorem processItemCard_idempotent
    (URL_hostname : string → option string) (itemCard : DomNode)
    (blockedShops blockedShops' : Blocklist) (w : World) :
  (processItemCard URL_hostname itemCard blockedShops ;;
   processItemCard URL_hostname itemCard blockedShops') w
  = processItemCard URL_hostname itemCard blockedShops w
  ∧ (has_attr "data-shop-blocker-processed"
       <$> element_at
             (snd (processItemCard URL_hostname itemCard blockedShops w))
             itemCard)
    = ((λ _, true) <$> element_at w itemCard).
Proof.
  unfold element_at, bind.
  destruct (dom_elements w !! nodeId itemCard) as [e|] eqn:He.
  - destruct (has_attr "data-shop-blocker-processed" e) eqn:Hp.
    + rewrite (processItemCard_processed _ _ _ _ _ He Hp).
      rewrite (processItemCard_processed _ _ _ _ _ He Hp).
      simpl. rewrite He. simpl. rewrite Hp. auto.
    + destruct (processItemCard_first URL_hostname _ blockedShops _ _ He Hp)
        as (r & lines & _ & ->).
      simpl. rewrite lookup_insert_eq. simpl.
      rewrite classified_processed. split; [|reflexivity].
      apply processItemCard_processed with (e := classified blockedShops r e).
      * simpl. apply lookup_insert_eq.
      * apply classified_processed.
  - rewrite (processItemCard_not_element _ _ _ _ He). simpl.
    rewrite He. auto.
Qed.

(** The ways a card yields no identifier: it has no shop link; the link
    has no [href] or an empty one; the [href] does not parse; the host does
    not match the pattern; the subdomain is reserved. *)
Lemma getShopIdFromItemCard_None
    (URL_hostname : string → option string) (itemCard : DomNode) (w : World) :
  shop_link (dom_elements w) itemCard = None
  ∨ (∃ link e,
       shop_link (dom_elements w) itemCard = Some link
       ∧ dom_elements w !! nodeId link = Some e
       ∧ match attributes e !! "href" with
         | None => True
         | Some u =>
             u = "" ∨ URL_hostname u = None
             ∨ ∃ hostname,
                 URL_hostname u = Some hostname
                 ∧ (match_shop_host hostname = None
                    ∨ ∃ sub, match_shop_host hostname = Some sub
                             ∧ reserved sub = true)
         end) →
  fst (getShopIdFromItemCard URL_hostname itemCard w) = Normal None.
Proof.
  unfold getShopIdFromItemCard. js_unfold.
  fold (shop_link (dom_elements w) itemCard).
  intros [->|(link & e & -> & He & Hhref)]; [reflexivity|].
  js_unfold. rewrite He. unfold extractShopId.
  destruct (attributes e !! "href") as [u|]; [|reflexivity].
  destruct (String.eqb u "") eqn:Hu; [reflexivity|].
  unfold new_URL_hostname. js_unfold.
  destruct Hhref as [->|[Hh|(hostname & Hh & Hm)]]; [discriminate| |];
    rewrite Hh; [reflexivity|].
  destruct Hm as [->|(sub & -> & ->)]; reflexivity.
Qed.

Lemma getShopIdFromItemCard_None_witness :
  fst (getShopIdFromItemCard sample_URL_hostname card_node
         (page_with_card (card_element ∅ "")
            "https://accounts.booth.pm/settings"))
  = Normal None.
Proof.
  apply getShopIdFromItemCard_None. right.
  exists (Node 2 []), (anchor_element "https://accounts.booth.pm/settings").
  split; [vm_compute; reflexivity|].
  split; [vm_compute; reflexivity|].
  change (attributes (anchor_element "https://accounts.booth.pm/settings")
          !! "href")
    with (Some "https://accounts.booth.pm/settings").
  right. right. exists "accounts.booth.pm".
  split; [vm_compute; reflexivity|].
  right. exists "accounts". split; vm_compute; reflexivity.
Defined.

(** C6. A card whose shop link yields no identifier (no link, a link that
    does not parse, a reserved subdomain) is classified without being
    hidden, whatever the snapshot holds: the classification returns
    normally, the card gains at most the processed mark, so its inline
    display, its shop id annotation and its blocked marker are what they
    were, and no other element is written. *)
Theorem unresolved_card_left_alone
    (URL_hostname : string → option string) (itemCard : DomNode)
    (blockedShops : Blocklist) (w : World) (e : Element) :
  element_at w itemCard = Some e →
  fst (getShopIdFromItemCard URL_hostname itemCard w) = Normal None →
  fst (processItemCard URL_hostname itemCard blockedShops w) = Normal tt
  ∧ ∃ e',
      element_at (snd (processItemCard URL_hostname itemCard blockedShops w))
        itemCard = Some e'
      ∧ (e' = e ∨ e' = put_attribute "data-shop-blocker-processed" "true" e)
      ∧ style_display e' = style_display e
      ∧ hidden e' = hidden e
      ∧ attributes e' !! "data-shop-id" = attributes e !! "data-shop-id"
      ∧ attributes e' !! "data-blocked-shop"
        = attributes e !! "data-blocked-shop"
      ∧ ∀ n, nodeId n ≠ nodeId itemCard →
             element_at
               (snd (processItemCard URL_hostname itemCard blockedShops w)) n
             = element_at w n.
Proof.
  unfold element_at. intros He Hnone.
  destruct (has_attr "data-shop-blocker-processed" e) eqn:Hp.
  - rewrite (processItemCard_processed _ _ _ _ _ He Hp). simpl.
    split; [reflexivity|]. exists e. repeat split; auto.
  - destruct (processItemCard_first URL_hostname _ blockedShops _ _ He Hp)
      as (r & lines & Hr & ->).
    rewrite Hnone in Hr. injection Hr as <-. simpl.
    split; [reflexivity|].
    exists (put_attribute "data-shop-blocker-processed" "true" e).
    rewrite lookup_insert_eq. repeat split; auto.
    + unfold hidden, has_attr. simpl.
      rewrite lookup_insert_ne by discriminate. reflexivity.
    + simpl. rewrite lookup_insert_ne by discriminate. reflexivity.
    + simpl. rewrite lookup_insert_ne by discriminate. reflexivity.
    + intros n Hn. rewrite lookup_insert_ne by auto. reflexivity.
Qed.

(** Scenario B of the design document: a link to the [accounts] subdomain,
    with [accounts] itself a key of the blocklist. *)
Lemma unresolved_card_left_alone_witness :
  ∃ e',
    element_at
      (snd (processItemCard sample_URL_hostname card_node
              {[ "accounts" := sample_record ]}
              (page_with_card (card_element ∅ "")
                 "https://accounts.booth.pm/settings")))
      card_node = Some e'
    ∧ hidden e' = false
    ∧ attributes e' !! "data-shop-id" = None.
Proof.
  destruct (unresolved_card_left_alone sample_URL_hostname card_node
              {[ "accounts" := sample_record ]}
              (page_with_card (card_element ∅ "")
                 "https://accounts.booth.pm/settings")
              (card_element ∅ "") eq_refl eq_refl)
    as (_ & e' & He' & _ & _ & Hh & Hid & _).
  exists e'. split; [exact He'|]. split.
  - rewrite Hh. reflexivity.
  - rewrite Hid. reflexivity.
Defined.

(** Scenario A of the design document: the card of a blocked shop is
    hidden by its classification and carries the three annotations. *)
Example blocked_shop_card_hidden :
  element_at
    (snd (processItemCard sample_URL_hostname card_node
            {[ "foo" := sample_record ]}
            (page_with_card (card_element ∅ "")
               "https://foo.booth.pm/items/123")))
    card_node
  = Some (card_element
            {[ "data-shop-blocker-processed" := "true";
               "data-shop-id" := "foo";
               "data-blocked-shop" := "true" ]}
            "none").
Proof. vm_compute. reflexivity. Qed.

(** ** Loops over elements *)

Section ForEachElement.

(** A loop body that rewrites the element it is given by [g] and does
    nothing else. *)
Variable body : DomNode → Js unit.
Variable g : Element → Element.
Hypothesis body_run : ∀ n w e,
  dom_elements w !! nodeId n = Some e →
  body n w
  = (Normal tt, with_elements (<[nodeId n := g e]> (dom_elements w)) w).
Hypothesis g_idempotent : ∀ e, g (g e) = g e.

Lemma forEach_elements (l : list DomNode) (w : World) :
  (∀ n, In n l → is_Some (dom_elements w !! nodeId n)) →
  ∃ els',
    forEach l body w = (Normal tt, with_elements els' w)
    ∧ ∀ i, els' !! i =
           if decide (i ∈ map nodeId l) then g <$> dom_elements w !! i
           else dom_elements w !! i.
Proof.
  revert w. induction l as [|n l IH]; intros w Hall.
  - exists (dom_elements w). split.
    + simpl. unfold ret. rewrite with_elements_id. reflexivity.
    + intros i. rewrite decide_False; [reflexivity|].
      simpl. apply not_elem_of_nil.
  - destruct (Hall n (or_introl eq_refl)) as [e He].
    set (w1 := with_elements (<[nodeId n := g e]> (dom_elements w)) w).
    destruct (IH w1) as (els' & Hrun & Hlook).
    { intros m Hm. simpl. destruct (decide (nodeId n = nodeId m)) as [->|Hne].
      - rewrite lookup_insert_eq. eauto.
      - rewrite lookup_insert_ne by exact Hne. apply Hall. right. exact Hm. }
    exists els'. split.
    + simpl. unfold bind. rewrite (body_run _ _ _ He). fold w1.
      rewrite Hrun. reflexivity.
    + intros i. rewrite Hlook. simpl.
      destruct (decide (i = nodeId n)) as [->|Hne].
      * rewrite lookup_insert_eq, He.
        rewrite (decide_True (P := nodeId n ∈ nodeId n :: map nodeId l))
          by (left; reflexivity).
        case_decide; simpl; [rewrite g_idempotent|]; reflexivity.
      * rewrite lookup_insert_ne by auto.
        destruct (decide (i ∈ map nodeId l)) as [Hin|Hnin].
        -- rewrite decide_True by (right; exact Hin). reflexivity.
        -- rewrite decide_False; [reflexivity|].
           intros Hin. apply elem_of_cons in Hin as [?|?]; auto.
Qed.

End ForEachElement.

(** ** The storage-change listener *)

Lemma hide_element_idempotent e : hide_element (hide_element e) = hide_element e.
Proof.
  unfold hide_element, put_attribute, put_display; simpl.
  rewrite insert_insert_eq. reflexivity.
Qed.

Lemma show_element_idempotent e : show_element (show_element e) = show_element e.
Proof.
  unfold show_element, drop_attribute, put_display; simpl.
  rewrite delete_delete_eq. reflexivity.
Qed.

Lemma show_hide_element e : show_element (hide_element e) = show_element e.
Proof.
  unfold show_element, hide_element, drop_attribute, put_attribute,
    put_display; simpl.
  rewrite delete_insert_eq. reflexivity.
Qed.

Lemma reconciled_idempotent newBlockedShops e :
  reconciled newBlockedShops (reconciled newBlockedShops e)
  = reconciled newBlockedShops e.
Proof.
  unfold reconciled at 2 3.
  destruct (attributes e !! "data-shop-id") as [id|] eqn:Hid.
  2:{ unfold reconciled. rewrite Hid. reflexivity. }
  destruct (String.eqb id "") eqn:Hempty.
  { unfold reconciled. rewrite Hid, Hempty. reflexivity. }
  destruct (js_in id newBlockedShops) eqn:Hin; unfold reconciled; simpl.
  - rewrite lookup_insert_ne by discriminate.
    rewrite Hid, Hempty, Hin. apply hide_element_idempotent.
  - rewrite lookup_delete_ne by discriminate.
    rewrite Hid, Hempty, Hin. apply show_element_idempotent.
Qed.

(** One step of the listener's loop. *)
Lemma reconcile_step newBlockedShops n w e :
  dom_elements w !! nodeId n = Some e →
  (shopId <- getAttribute n "data-shop-id" ;;
   match shopId with
   | None => ret tt
   | Some id =>
       if String.eqb id "" then ret tt
       else if js_in id newBlockedShops then hideItemCard n
       else showItemCard n
   end) w
  = (Normal tt,
     with_elements
       (<[nodeId n := reconciled newBlockedShops e]> (dom_elements w)) w).
Proof.
  intros He. js_unfold. rewrite He. unfold reconciled.
  destruct (attributes e !! "data-shop-id") as [id|].
  2:{ rewrite with_elements_insert_id by exact He. reflexivity. }
  destruct (String.eqb id "").
  { rewrite with_elements_insert_id by exact He. reflexivity. }
  destruct (js_in id newBlockedShops).
  - apply hideItemCard_run. exact He.
  - apply showItemCard_run. exact He.
Qed.

Lemma annotated_cards_elements w n :
  In n (annotated_cards w) → is_Some (dom_elements w !! nodeId n).
Proof.
  unfold annotated_cards. intros H. apply filter_In in H as [_ H].
  unfold selects in H. destruct (dom_elements w !! nodeId n); [eauto|discriminate].
Qed.

(** A pass of the listener: every annotated card becomes [reconciled]
    against the new value, nothing else changes. *)
Lemma storage_listener_run change w :
  ∃ els',
    storage_listener {| blockedShops := Some change |} "local" w
    = (Normal tt, with_elements els' w)
    ∧ ∀ i, els' !! i =
           if decide (i ∈ map nodeId (annotated_cards w))
           then reconciled (blocklist_of (newValue change))
                  <$> dom_elements w !! i
           else dom_elements w !! i.
Proof.
  unfold storage_listener. simpl. js_unfold.
  fold (annotated_cards w).
  apply forEach_elements with (g := reconciled (blocklist_of (newValue change))).
  - intros n w' e He.
    apply (reconcile_step (blocklist_of (newValue change)) n w' e He).
  - apply reconciled_idempotent.
  - apply annotated_cards_elements.
Qed.

(** A notification for another area, or one that does not carry the key,
    is ignored. *)
Lemma storage_listener_ignored changes areaName w :
  areaName ≠ "local" ∨ blockedShops changes = None →
  storage_listener changes areaName w = (Normal tt, w).
Proof.
  unfold storage_listener. intros [H|H].
  - apply String.eqb_neq in H. rewrite H. reflexivity.
  - rewrite H. destruct (negb _); reflexivity.
Qed.

Lemma reconciled_frame newBlockedShops e :
  classList (reconciled newBlockedShops e) = classList e
  ∧ (∀ k, k ≠ "data-blocked-shop" →
          attributes (reconciled newBlockedShops e) !! k = attributes e !! k)
  ∧ (attributes e !! "data-shop-id" = None → reconciled newBlockedShops e = e).
Proof.
  unfold reconciled.
  destruct (attributes e !! "data-shop-id") as [id|]; [|auto].
  destruct (String.eqb id ""); [repeat split; auto; discriminate|].
  destruct (js_in id newBlockedShops); simpl.
  - repeat split; [|discriminate]. intros k Hk.
    rewrite lookup_insert_ne by auto. reflexivity.
  - repeat split; [|discriminate]. intros k Hk.
    rewrite lookup_delete_ne by auto. reflexivity.
Qed.

Lemma annotated_cards_In w n e :
  In n (descendants (document w)) →
  dom_elements w !! nodeId n = Some e →
  has_class "item-card" e = true →
  is_Some (attributes e !! "data-shop-id") →
  In n (annotated_cards w).
Proof.
  intros Hin He Hc [id Hid]. unfold annotated_cards.
  apply filter_In. split; [exact Hin|].
  unfold selects. rewrite He. simpl. unfold has_attr. rewrite Hc, Hid.
  reflexivity.
Qed.

(** What a pass establishes for every annotated card of the document: it
    is hidden exactly when [shopId in newBlockedShops] holds. *)
Lemma storage_listener_reconciles change w n e id :
  In n (descendants (document w)) →
  element_at w n = Some e →
  has_class "item-card" e = true →
  attributes e !! "data-shop-id" = Some id →
  id ≠ "" →
  ∃ e',
    element_at
      (snd (storage_listener {| blockedShops := Some change |} "local" w)) n
    = Some e'
    ∧ e' = (if js_in id (blocklist_of (newValue change))
            then hide_element e else show_element e)
    ∧ hidden e' = js_in id (blocklist_of (newValue change)).
Proof.
  unfold element_at. intros Hin He Hc Hid Hne.
  destruct (storage_listener_run change w) as (els' & -> & Hlook).
  simpl. rewrite Hlook, He.
  rewrite decide_True.
  2:{ apply list_elem_of_In, in_map, (annotated_cards_In w n e); eauto. }
  simpl. eexists. split; [reflexivity|].
  unfold reconciled. rewrite Hid.
  apply String.eqb_neq in Hne. rewrite Hne.
  split; [reflexivity|].
  destruct (js_in id _); [apply hidden_hide_element|apply hidden_show_element].
Qed.

(** For a shop id that names no property of [Object.prototype], that is:
    hidden exactly when the id is a key of the new blocklist. *)
Lemma storage_listener_reconciles_own change w n e id :
  In n (descendants (document w)) →
  element_at w n = Some e →
  has_class "item-card" e = true →
  attributes e !! "data-shop-id" = Some id →
  id ≠ "" →
  inherited id = false →
  ∃ e',
    element_at
      (snd (storage_listener {| blockedShops := Some change |} "local" w)) n
    = Some e'
    ∧ (hidden e' = true ↔ id ∈ dom (blocklist_of (newValue change))).
Proof.
  intros Hin He Hc Hid Hne Hinh.
  destruct (storage_listener_reconciles change w n e id Hin He Hc Hid Hne)
    as (e' & He' & _ & Hh).
  exists e'. split; [exact He'|]. rewrite Hh, elem_of_dom.
  unfold js_in. destruct (blocklist_of (newValue change) !! id).
  - split; eauto.
  - rewrite Hinh. split; [discriminate|]. intros [? [=]].
Qed.

Lemma storage_listener_reconciles_own_witness :
  ∃ e',
    element_at
      (snd (storage_listener
              {| blockedShops :=
                   Some {| oldValue := None;
                           newValue := Some {[ "foo" := sample_record ]} |} |}
              "local"
              (page_with_card (card_element {[ "data-shop-id" := "foo" ]} "")
                 "https://foo.booth.pm/items/1")))
      card_node
    = Some e'
    ∧ (hidden e' = true
       ↔ "foo" ∈ dom (blocklist_of (Some {[ "foo" := sample_record ]}))).
Proof.
  apply (storage_listener_reconciles_own
           {| oldValue := None;
              newValue := Some {[ "foo" := sample_record ]} |}
           (page_with_card (card_element {[ "data-shop-id" := "foo" ]} "")
              "https://foo.booth.pm/items/1")
           card_node (card_element {[ "data-shop-id" := "foo" ]} "") "foo").
  - simpl. auto.
  - reflexivity.
  - reflexivity.
  - vm_compute. reflexivity.
  - discriminate.
  - reflexivity.
Defined.

(** C1 at the failing input. A card of the shop [constructor] is on the
    page; the last blocked shop is removed, so the new blocklist is empty.
    The listener hides the card although [constructor] is no key of the new
    blocklist: [in] finds the property every object inherits. *)
Theorem storage_listener_hides_inherited_id :
  (∅ : Blocklist) !! "constructor" = None
  ∧ ∃ e',
      element_at
        (snd (storage_listener
                {| blockedShops :=
                     Some {| oldValue := Some {[ "foo" := sample_record ]};
                             newValue := Some ∅ |} |}
                "local"
                (page_with_card
                   (card_element {[ "data-shop-id" := "constructor" ]} "")
                   "https://constructor.booth.pm/items/1")))
        card_node = Some e'
      ∧ attributes e' !! "data-shop-id" = Some "constructor"
      ∧ hidden e' = true.
Proof.
  split; [reflexivity|].
  destruct (storage_listener_reconciles
              {| oldValue := Some {[ "foo" := sample_record ]};
                 newValue := Some ∅ |}
              (page_with_card
                 (card_element {[ "data-shop-id" := "constructor" ]} "")
                 "https://constructor.booth.pm/items/1")
              card_node
              (card_element {[ "data-shop-id" := "constructor" ]} "")
              "constructor")
    as (e' & He' & -> & Hh); try reflexivity.
  - simpl. auto.
  - discriminate.
  - exists (hide_element (card_element {[ "data-shop-id" := "constructor" ]} "")).
    split; [exact He'|]. split; reflexivity.
Qed.

(** C9. Frame of a listener pass, for any notification: it returns
    normally and writes nothing but elements; no element appears or
    disappears; an element keeps its class list and, the inline style
    apart, every attribute other than the blocked marker, in particular
    the processed mark and the shop id annotation; an element without shop
    id annotation is left exactly as it was. *)
Theorem storage_listener_frame (changes : Changes) (areaName : string)
    (w : World) :
  fst (storage_listener changes areaName w) = Normal tt
  ∧ snd (storage_listener changes areaName w)
    = with_elements
        (dom_elements (snd (storage_listener changes areaName w))) w
  ∧ ∀ i,
      match dom_elements w !! i with
      | None =>
          dom_elements (snd (storage_listener changes areaName w)) !! i = None
      | Some e =>
          ∃ e',
            dom_elements (snd (storage_listener changes areaName w)) !! i
            = Some e'
            ∧ classList e' = classList e
            ∧ attributes e' !! "data-shop-blocker-processed"
              = attributes e !! "data-shop-blocker-processed"
            ∧ attributes e' !! "data-shop-id" = attributes e !! "data-shop-id"
            ∧ (∀ k, k ≠ "data-blocked-shop" →
                    attributes e' !! k = attributes e !! k)
            ∧ (attributes e !! "data-shop-id" = None → e' = e)
      end.
Proof.
  destruct (decide (areaName = "local")) as [->|Harea].
  2:{ rewrite storage_listener_ignored by auto. simpl.
      rewrite with_elements_id. repeat split.
      intros i. destruct (dom_elements w !! i) as [e|]; [|reflexivity].
      exists e. repeat split; auto. }
  destruct changes as [[change|]].
  2:{ rewrite storage_listener_ignored by auto. simpl.
      rewrite with_elements_id. repeat split.
      intros i. destruct (dom_elements w !! i) as [e|]; [|reflexivity].
      exists e. repeat split; auto. }
  destruct (storage_listener_run change w) as (els' & -> & Hlook).
  simpl. repeat split. intros i. rewrite Hlook.
  destruct (dom_elements w !! i) as [e|]; [|case_decide; reflexivity].
  destruct (reconciled_frame (blocklist_of (newValue change)) e)
    as (Hc & Hk & Hid).
  case_decide; simpl.
  - eexists. split; [reflexivity|].
    repeat split; auto; apply Hk; discriminate.
  - exists e. repeat split; auto.
Qed.

(** ** The blocklist store *)

(** Case analysis on the outcome of the next two storage calls. *)
Ltac fault_cases w :=
  destruct w as [doc els con per fs calls clk];
  destruct fs as [|[] [|[] fs]];
  cbv [BoothShopStorage.getAllBlocked BoothShopStorage.blockShop
       BoothShopStorage.unblockShop BoothShopStorage.updateReason
       browser_storage_local_get browser_storage_local_set next_fault
       after_read_write after_read read_view read_log fault_at
       with_console with_storage blocklist_of
       faults persisted console storage_calls clock document dom_elements
       nth drop];
  js_unfold;
  cbv [with_console with_storage
       faults persisted console storage_calls clock document dom_elements];
  cbn [negb app];
  rewrite <- ?app_assoc, ?app_nil_r; cbn [app].

Lemma getAllBlocked_run w :
  BoothShopStorage.getAllBlocked w = (Normal (read_view w), after_read w).
Proof. fault_cases w; reflexivity. Qed.

Lemma blockShop_run shopId shopName why w :
  BoothShopStorage.blockShop shopId shopName why w
  = (Normal (negb (fault_at 1 w)),
     after_read_write
       (js_assign shopId
          {| name := shopName; reason := why; timestamp := clock w |}
          (read_view w))
       "Failed to block shop:" w).
Proof. fault_cases w; reflexivity. Qed.

Lemma unblockShop_run shopId w :
  BoothShopStorage.unblockShop shopId w
  = (Normal (negb (fault_at 1 w)),
     after_read_write (js_delete shopId (read_view w))
       "Failed to unblock shop:" w).
Proof. fault_cases w; reflexivity. Qed.

Lemma updateReason_run shopId why w :
  BoothShopStorage.updateReason shopId why w
  = match js_get shopId (read_view w) with
    | Own rec =>
        (Normal (negb (fault_at 1 w)),
         after_read_write
           (<[shopId := BoothShopStorage.set_reason why rec]> (read_view w))
           "Failed to update reason:" w)
    | Builtin =>
        (Normal (negb (fault_at 1 w)),
         after_read_write (read_view w) "Failed to update reason:" w)
    | Undefined => (Normal false, after_read w)
    end.
Proof.
  fault_cases w;
    match goal with
    | |- context [js_get ?k ?m] => destruct (js_get k m)
    end;
    cbv beta iota; rewrite <- ?app_assoc, ?app_nil_r; reflexivity.
Qed.

Lemma persisted_after_read_write value line w :
  persisted (after_read_write value line w)
  = if fault_at 1 w then persisted w else Some value.
Proof. reflexivity. Qed.

Lemma read_view_ok w :
  fault_at 0 w = false → read_view w = blocklist_of (persisted w).
Proof. unfold read_view. intros ->. reflexivity. Qed.

(** No store operation throws, none makes more than one read and one
    write, and a rejected write is answered with false and leaves the
    stored value as it was. *)
Lemma store_operations_absorb_faults shopId shopName why w :
  (fst (BoothShopStorage.getAllBlocked w)
   = Normal (if fault_at 0 w then ∅ else blocklist_of (persisted w))
   ∧ storage_calls (snd (BoothShopStorage.getAllBlocked w))
     = storage_calls w ++ [LocalGet])
  ∧ (∃ ok value,
       fst (BoothShopStorage.blockShop shopId shopName why w) = Normal ok
       ∧ storage_calls (snd (BoothShopStorage.blockShop shopId shopName why w))
         = storage_calls w ++ [LocalGet; LocalSet value]
       ∧ (fault_at 1 w = true →
          ok = false
          ∧ persisted (snd (BoothShopStorage.blockShop shopId shopName why w))
            = persisted w))
  ∧ (∃ ok value,
       fst (BoothShopStorage.unblockShop shopId w) = Normal ok
       ∧ storage_calls (snd (BoothShopStorage.unblockShop shopId w))
         = storage_calls w ++ [LocalGet; LocalSet value]
       ∧ (fault_at 1 w = true →
          ok = false
          ∧ persisted (snd (BoothShopStorage.unblockShop shopId w))
            = persisted w))
  ∧ (∃ ok,
       fst (BoothShopStorage.updateReason shopId why w) = Normal ok
       ∧ (storage_calls (snd (BoothShopStorage.updateReason shopId why w))
          = storage_calls w ++ [LocalGet]
          ∨ ∃ value,
              storage_calls (snd (BoothShopStorage.updateReason shopId why w))
              = storage_calls w ++ [LocalGet; LocalSet value])
       ∧ (fault_at 1 w = true →
          ok = false
          ∧ persisted (snd (BoothShopStorage.updateReason shopId why w))
            = persisted w)).
Proof.
  split; [|split; [|split]].
  - rewrite getAllBlocked_run. split; reflexivity.
  - rewrite blockShop_run. eexists _, _. simpl.
    split; [reflexivity|]. split; [reflexivity|].
    unfold after_read_write. simpl. intros ->. auto.
  - rewrite unblockShop_run. eexists _, _. simpl.
    split; [reflexivity|]. split; [reflexivity|].
    unfold after_read_write. simpl. intros ->. auto.
  - rewrite updateReason_run.
    destruct (js_get shopId (read_view w)); eexists; simpl;
      (split; [reflexivity|]).
    + split; [right; eexists; reflexivity|]. intros ->. auto.
    + split; [right; eexists; reflexivity|]. intros ->. auto.
    + split; [left; reflexivity|]. auto.
Qed.

(** C8 at the failing input. The storage area holds a record for [bar];
    the read of [blockShop] rejects and its write goes through. The
    failure is not reported: the operation answers true, and it has stored
    a blocklist that holds [foo] alone. *)
Theorem blockShop_read_fault_answers_true :
  fst (BoothShopStorage.blockShop "foo" "Foo" ""
         (store_world (Some {[ "bar" := sample_record ]}) [true; false]))
  = Normal true
  ∧ persisted
      (snd (BoothShopStorage.blockShop "foo" "Foo" ""
              (store_world (Some {[ "bar" := sample_record ]}) [true; false])))
    = Some {[ "foo" := {| name := "Foo"; reason := "";
                          timestamp := 1700000000999 |} ]}.
Proof. rewrite blockShop_run. split; reflexivity. Qed.

(** C10. With no storage fault, [unblockShop] on a shop id that is not in
    the blocklist answers true and leaves the blocklist as it was; and it
    answers true just the same when the id is in the blocklist, so the
    answer tells the two cases apart in no world. *)
Theorem unblockShop_absent_key (shopId : string) (w : World) :
  fault_at 0 w = false →
  fault_at 1 w = false →
  blocklist_of (persisted w) !! shopId = None →
  fst (BoothShopStorage.unblockShop shopId w) = Normal true
  ∧ stored_after (BoothShopStorage.unblockShop shopId) w
    = blocklist_of (persisted w)
  ∧ ∀ w', fault_at 1 w' = false →
          fst (BoothShopStorage.unblockShop shopId w') = Normal true.
Proof.
  intros Hread Hwrite Habsent. unfold stored_after.
  rewrite unblockShop_run. cbn [fst snd].
  rewrite persisted_after_read_write, Hwrite.
  rewrite read_view_ok by exact Hread. simpl.
  repeat split.
  - unfold js_delete. apply delete_id. exact Habsent.
  - intros w' Hw'. rewrite unblockShop_run, Hw'. reflexivity.
Qed.

Lemma unblockShop_absent_key_witness :
  fst (BoothShopStorage.unblockShop "bar"
         (store_world (Some {[ "foo" := sample_record ]}) []))
  = Normal true
  ∧ stored_after (BoothShopStorage.unblockShop "bar")
      (store_world (Some {[ "foo" := sample_record ]}) [])
    = {[ "foo" := sample_record ]}.
Proof.
  destruct (unblockShop_absent_key "bar"
              (store_world (Some {[ "foo" := sample_record ]}) []))
    as (Hok & Hsame & _).
  - reflexivity.
  - reflexivity.
  - vm_compute. reflexivity.
  - split; [exact Hok|exact Hsame].
Defined.

Lemma js_assign_other {V} (k other : string) (v : V) (o : gmap string V) :
  other ≠ k → js_assign k v o !! other = o !! other.
Proof.
  intros Hne. unfold js_assign.
  destruct (o !! k); [|destruct (String.eqb k "__proto__")];
    try reflexivity; rewrite lookup_insert_ne by auto; reflexivity.
Qed.

Lemma js_assign_same {V} (k : string) (v : V) (o : gmap string V) :
  k ≠ "__proto__" → js_assign k v o !! k = Some v.
Proof.
  intros Hne. unfold js_assign. apply String.eqb_neq in Hne. rewrite Hne.
  destruct (o !! k); apply lookup_insert_eq.
Qed.

(** C7 (as amended). When the read of the operation does not reject:
    an operation on [shopId] leaves the record of every other shop id as
    it was; [blockShop] stores a record made of its arguments and the
    clock, whether or not [shopId] had one (it replaces an existing
    record); [unblockShop] removes the record; [updateReason] on an
    existing record changes its reason and nothing else of it; and
    [updateReason] on a shop id that has no record and names no inherited
    property answers false and writes nothing. *)
Theorem store_operations_on_records (shopId : string) (w : World) :
  fault_at 0 w = false →
  (∀ other shopName why, other ≠ shopId →
     stored_after (BoothShopStorage.blockShop shopId shopName why) w !! other
     = blocklist_of (persisted w) !! other
     ∧ stored_after (BoothShopStorage.unblockShop shopId) w !! other
       = blocklist_of (persisted w) !! other
     ∧ stored_after (BoothShopStorage.updateReason shopId why) w !! other
       = blocklist_of (persisted w) !! other)
  ∧ (∀ shopName why, fault_at 1 w = false → shopId ≠ "__proto__" →
       stored_after (BoothShopStorage.blockShop shopId shopName why) w
         !! shopId
       = Some {| name := shopName; reason := why; timestamp := clock w |})
  ∧ (fault_at 1 w = false →
       stored_after (BoothShopStorage.unblockShop shopId) w !! shopId = None)
  ∧ (∀ why rec, blocklist_of (persisted w) !! shopId = Some rec →
       fst (BoothShopStorage.updateReason shopId why w)
       = Normal (negb (fault_at 1 w))
       ∧ stored_after (BoothShopStorage.updateReason shopId why) w !! shopId
         = Some (if fault_at 1 w then rec
                 else {| name := name rec; reason := why;
                         timestamp := timestamp rec |}))
  ∧ (∀ why, blocklist_of (persisted w) !! shopId = None →
       inherited shopId = false →
       fst (BoothShopStorage.updateReason shopId why w) = Normal false
       ∧ persisted (snd (BoothShopStorage.updateReason shopId why w))
         = persisted w
       ∧ storage_calls (snd (BoothShopStorage.updateReason shopId why w))
         = storage_calls w ++ [LocalGet]).
Proof.
  intros Hread. unfold stored_after.
  split; [|split; [|split; [|split]]].
  - intros other shopName why Hne.
    rewrite blockShop_run, unblockShop_run, updateReason_run.
    rewrite read_view_ok by exact Hread. cbn [fst snd].
    split; [|split].
    + rewrite persisted_after_read_write.
      destruct (fault_at 1 w); [reflexivity|]. simpl.
      apply js_assign_other. exact Hne.
    + rewrite persisted_after_read_write.
      destruct (fault_at 1 w); [reflexivity|]. simpl.
      unfold js_delete. apply lookup_delete_ne. auto.
    + destruct (js_get shopId (blocklist_of (persisted w))); cbn [fst snd];
        [| |reflexivity]; rewrite persisted_after_read_write;
        destruct (fault_at 1 w); try reflexivity; simpl.
      apply lookup_insert_ne. auto.
  - intros shopName why Hwrite Hproto.
    rewrite blockShop_run. cbn [fst snd].
    rewrite persisted_after_read_write, Hwrite. simpl.
    rewrite read_view_ok by exact Hread.
    apply js_assign_same. exact Hproto.
  - intros Hwrite. rewrite unblockShop_run. cbn [fst snd].
    rewrite persisted_after_read_write, Hwrite. simpl.
    apply lookup_delete_eq.
  - intros why rec Hrec. rewrite updateReason_run.
    rewrite read_view_ok by exact Hread.
    unfold js_get. rewrite Hrec. cbn [fst snd].
    split; [reflexivity|]. rewrite persisted_after_read_write.
    destruct (fault_at 1 w); [exact Hrec|]. simpl.
    apply lookup_insert_eq.
  - intros why Hnone Hinh. rewrite updateReason_run.
    rewrite read_view_ok by exact Hread.
    unfold js_get. rewrite Hnone, Hinh. cbn [fst snd].
    repeat split.
Qed.

Lemma store_operations_on_records_witness :
  stored_after (BoothShopStorage.updateReason "foo" "duplicates")
    (store_world (Some {[ "foo" := sample_record ]}) []) !! "foo"
  = Some {| name := "Shop"; reason := "duplicates";
            timestamp := 1700000000000 |}.
Proof.
  destruct (store_operations_on_records "foo"
              (store_world (Some {[ "foo" := sample_record ]}) []))
    as (_ & _ & _ & Hupdate & _).
  - reflexivity.
  - destruct (Hupdate "duplicates" sample_record) as [_ Hrec].
    + vm_compute. reflexivity.
    + exact Hrec.
Defined.

(** C7 as stated fails: [blockShop] on a shop id that already has a record
    changes the stored name, reason and timestamp of that record. *)
Lemma blockShop_replaces_record :
  blocklist_of
    (persisted (store_world (Some {[ "foo" := sample_record ]}) []))
    !! "foo"
  = Some {| name := "Shop"; reason := "spam"; timestamp := 1700000000000 |}
  ∧ fst (BoothShopStorage.blockShop "foo" "Other name" ""
           (store_world (Some {[ "foo" := sample_record ]}) []))
    = Normal true
  ∧ stored_after (BoothShopStorage.blockShop "foo" "Other name" "")
      (store_world (Some {[ "foo" := sample_record ]}) []) !! "foo"
    = Some {| name := "Other name"; reason := "";
              timestamp := 1700000000999 |}.
Proof.
  unfold stored_after. rewrite blockShop_run.
  split; [|split]; vm_compute; reflexivity.
Qed.

(** ** Block, then unblock *)

Lemma no_faults_fault_at w i : no_faults w → fault_at i w = false.
Proof.
  unfold no_faults, fault_at. generalize (faults w). intros l H. revert i.
  induction H as [|b l Hb _ IH]; intros [|i]; simpl; auto.
Qed.

Lemma nth_drop {A} (k i : nat) (l : list A) (d : A) :
  nth i (drop k l) d = nth (k + i) l d.
Proof.
  revert l. induction k as [|k IH]; intros [|x l]; simpl; auto.
  destruct i; reflexivity.
Qed.

(** A store operation that answered true, followed by the pass it
    triggers. *)
Lemma then_reconcile_run operation w w_op :
  operation w = (Normal true, w_op) →
  ∃ els',
    then_reconcile operation w = (Normal true, with_elements els' w_op)
    ∧ ∀ i, els' !! i =
           if decide (i ∈ map nodeId (annotated_cards w_op))
           then reconciled (blocklist_of (persisted w_op))
                  <$> dom_elements w_op !! i
           else dom_elements w_op !! i.
Proof.
  intros Hop. unfold then_reconcile, bind. rewrite Hop.
  unfold deliver_change.
  destruct (storage_listener_run
              {| oldValue := persisted w; newValue := persisted w_op |} w_op)
    as (els' & Hrun & Hlook).
  exists els'. rewrite Hrun. split; [reflexivity|exact Hlook].
Qed.

Lemma inherited_not_proto shopId : inherited shopId = false → shopId ≠ "__proto__".
Proof. intros H ->. discriminate H. Qed.

Lemma show_element_id e :
  show_element e = e
  ↔ style_display e = "" ∧ attributes e !! "data-blocked-shop" = None.
Proof.
  destruct e as [cls attrs disp].
  unfold show_element, drop_attribute, put_display. simpl. split.
  - intros [= Hattrs <-]. split; [reflexivity|].
    rewrite <- Hattrs. apply lookup_delete_eq.
  - intros [-> Hnone]. rewrite delete_id by exact Hnone. reflexivity.
Qed.

(** C5 (as amended). Take a card of the document annotated with a shop id
    that names no inherited property, and a world in which no storage call
    rejects. Blocking the shop, with the pass that follows, hides the card;
    unblocking it afterwards, with the pass that follows, leaves the card
    with the blocked marker removed and the inline display set to the
    empty string, everything else as before the block. So the card is back
    in its original state exactly when it had no inline display and no
    blocked marker to begin with; an inline display it had is not brought
    back. *)
Theorem block_then_unblock_round_trip
    (shopId shopName why : string) (w : World) (n : DomNode) (e : Element) :
  no_faults w →
  inherited shopId = false →
  shopId ≠ "" →
  In n (descendants (document w)) →
  element_at w n = Some e →
  has_class "item-card" e = true →
  attributes e !! "data-shop-id" = Some shopId →
  (hidden
     <$> element_at
           (snd (then_reconcile
                   (BoothShopStorage.blockShop shopId shopName why) w)) n)
  = Some true
  ∧ fst (block_then_unblock shopId shopName why w) = Normal true
  ∧ element_at (snd (block_then_unblock shopId shopName why w)) n
    = Some (show_element e)
  ∧ hidden (show_element e) = false
  ∧ style_display (show_element e) = ""
  ∧ (element_at (snd (block_then_unblock shopId shopName why w)) n = Some e
     ↔ style_display e = "" ∧ attributes e !! "data-blocked-shop" = None).
Proof.
  unfold element_at.
  intros Hfaults Hinh Hne Hin He Hclass Hid.
  pose proof (no_faults_fault_at w 0 Hfaults) as Hf0.
  pose proof (no_faults_fault_at w 1 Hfaults) as Hf1.
  pose proof (no_faults_fault_at w 2 Hfaults) as Hf2.
  pose proof (no_faults_fault_at w 3 Hfaults) as Hf3.
  apply String.eqb_neq in Hne.
  set (rec := {| name := shopName; reason := why; timestamp := clock w |}).
  remember (js_assign shopId rec (blocklist_of (persisted w))) as B1 eqn:HB1.
  remember (js_delete shopId B1) as B2 eqn:HB2.
  assert (js_in shopId B1 = true) as Hin1.
  { unfold js_in. rewrite HB1, js_assign_same; [reflexivity|].
    apply inherited_not_proto. exact Hinh. }
  assert (js_in shopId B2 = false) as Hin2.
  { unfold js_in. rewrite HB2. unfold js_delete.
    rewrite lookup_delete_eq. exact Hinh. }
  (* the block and its pass *)
  assert (∃ w_a,
            BoothShopStorage.blockShop shopId shopName why w
            = (Normal true, w_a)
            ∧ persisted w_a = Some B1
            ∧ dom_elements w_a = dom_elements w
            ∧ document w_a = document w
            ∧ fault_at 0 w_a = false ∧ fault_at 1 w_a = false)
    as (w_a & Hblock & Hp1 & Hels_a & Hdoc_a & Hg0 & Hg1).
  { eexists. rewrite blockShop_run, Hf1.
    split; [reflexivity|]. rewrite persisted_after_read_write, Hf1.
    rewrite read_view_ok by exact Hf0. fold rec.
    repeat split; [rewrite <- HB1; reflexivity|..];
      unfold fault_at in *; simpl; rewrite nth_drop; auto. }
  destruct (then_reconcile_run _ _ _ Hblock) as (els1 & Hrun1 & Hlook1).
  assert (els1 !! nodeId n = Some (hide_element e)) as He1.
  { rewrite Hlook1. rewrite decide_True.
    2:{ apply list_elem_of_In, in_map, (annotated_cards_In w_a n e); eauto;
          [rewrite Hdoc_a|rewrite Hels_a]; auto. }
    rewrite Hels_a, He, Hp1. cbn [fmap option_fmap option_map blocklist_of].
    unfold reconciled. rewrite Hid, Hne, Hin1. reflexivity. }
  (* the unblock and its pass *)
  assert (∃ w_b,
            BoothShopStorage.unblockShop shopId (with_elements els1 w_a)
            = (Normal true, w_b)
            ∧ persisted w_b = Some B2
            ∧ dom_elements w_b = els1
            ∧ document w_b = document w)
    as (w_b & Hunblock & Hp2 & Hels_b & Hdoc_b).
  { eexists. rewrite unblockShop_run.
    change (fault_at 1 (with_elements els1 w_a)) with (fault_at 1 w_a).
    rewrite Hg1. split; [reflexivity|].
    rewrite persisted_after_read_write.
    change (fault_at 1 (with_elements els1 w_a)) with (fault_at 1 w_a).
    rewrite Hg1. unfold read_view.
    change (fault_at 0 (with_elements els1 w_a)) with (fault_at 0 w_a).
    rewrite Hg0.
    change (persisted (with_elements els1 w_a)) with (persisted w_a).
    rewrite Hp1. cbn [blocklist_of]. rewrite <- HB2.
    repeat split. exact Hdoc_a. }
  destruct (then_reconcile_run _ _ _ Hunblock) as (els2 & Hrun2 & Hlook2).
  assert (els2 !! nodeId n = Some (show_element e)) as He2.
  { rewrite Hlook2. rewrite decide_True.
    2:{ apply list_elem_of_In, in_map,
          (annotated_cards_In w_b n (hide_element e)); eauto;
          [rewrite Hdoc_b|rewrite Hels_b|]; auto.
        simpl. rewrite lookup_insert_ne by discriminate. eauto. }
    rewrite Hels_b, He1, Hp2.
    cbn [fmap option_fmap option_map blocklist_of].
    unfold reconciled. simpl. rewrite lookup_insert_ne by discriminate.
    rewrite Hid, Hne, Hin2. fold (hide_element e).
    rewrite show_hide_element. reflexivity. }
  assert (block_then_unblock shopId shopName why w
          = (Normal true, with_elements els2 w_b)) as Hround.
  { unfold block_then_unblock, bind. rewrite Hrun1. exact Hrun2. }
  rewrite Hrun1, Hround. simpl.
  rewrite He1, He2. simpl. rewrite hidden_hide_element.
  split; [reflexivity|]. split; [reflexivity|]. split; [reflexivity|].
  split; [reflexivity|]. split; [reflexivity|].
  rewrite <- show_element_id. split; [intros [= ->]|intros ->]; reflexivity.
Qed.

Lemma block_then_unblock_round_trip_witness :
  element_at
    (snd (block_then_unblock "foo" "Foo" ""
            (page_with_card (card_element {[ "data-shop-id" := "foo" ]} "")
               "https://foo.booth.pm/items/1")))
    card_node
  = Some (card_element {[ "data-shop-id" := "foo" ]} "").
Proof.
  destruct (block_then_unblock_round_trip "foo" "Foo" ""
              (page_with_card (card_element {[ "data-shop-id" := "foo" ]} "")
                 "https://foo.booth.pm/items/1")
              card_node (card_element {[ "data-shop-id" := "foo" ]} ""))
    as (_ & _ & _ & _ & _ & Hsame).
  - constructor.
  - reflexivity.
  - discriminate.
  - simpl. auto.
  - reflexivity.
  - reflexivity.
  - vm_compute. reflexivity.
  - apply Hsame. split; [reflexivity|vm_compute; reflexivity].
Defined.

(** C5 as stated fails: a visible card with an inline display of its own
    does not get that display back. *)
Lemma block_then_unblock_loses_inline_display :
  element_at
    (page_with_card (card_element {[ "data-shop-id" := "foo" ]} "flex")
       "https://foo.booth.pm/items/1")
    card_node
  = Some (card_element {[ "data-shop-id" := "foo" ]} "flex")
  ∧ hidden (card_element {[ "data-shop-id" := "foo" ]} "flex") = false
  ∧ fst (block_then_unblock "foo" "Foo" ""
           (page_with_card (card_element {[ "data-shop-id" := "foo" ]} "flex")
              "https://foo.booth.pm/items/1"))
    = Normal true
  ∧ (style_display
       <$> element_at
             (snd (block_then_unblock "foo" "Foo" ""
                     (page_with_card
                        (card_element {[ "data-shop-id" := "foo" ]} "flex")
                        "https://foo.booth.pm/items/1")))
             card_node)
    = Some ""
  ∧ element_at
      (snd (block_then_unblock "foo" "Foo" ""
              (page_with_card
                 (card_element {[ "data-shop-id" := "foo" ]} "flex")
                 "https://foo.booth.pm/items/1")))
      card_node
    ≠ Some (card_element {[ "data-shop-id" := "foo" ]} "flex").
Proof.
  split; [reflexivity|]. split; [reflexivity|].
  split; [vm_compute; reflexivity|]. split; [vm_compute; reflexivity|].
  intros H.
  apply (f_equal (fmap style_display)) in H. vm_compute in H. discriminate H.
Qed.

(** ** The mutation pipeline *)

Lemma same_links_sym els1 els2 : same_links els1 els2 → same_links els2 els1.
Proof. intros H i. destruct (H i). auto. Qed.

Lemma page_step_refl w : page_step w w.
Proof. repeat split; auto. Qed.

Lemma page_step_trans w1 w2 w3 :
  page_step w1 w2 → page_step w2 w3 → page_step w1 w3.
Proof.
  intros (? & ? & ? & ? & ? & H12) (? & ? & ? & ? & ? & H23).
  repeat split; try congruence.
  - destruct (H12 i) as [-> _]. apply H23.
  - destruct (H12 i) as [_ ->]. apply H23.
Qed.

Lemma same_links_classified els i e blockedShops r :
  els !! i = Some e →
  same_links els (<[i := classified blockedShops r e]> els).
Proof.
  intros He j. destruct (decide (i = j)) as [<-|Hne].
  2:{ rewrite lookup_insert_ne by exact Hne. auto. }
  rewrite lookup_insert_eq, He. simpl. unfold classified.
  destruct r as [id|]; simpl;
    [destruct (String.eqb id ""); [|destruct (js_in id blockedShops)]|];
    simpl; rewrite ?lookup_insert_ne by discriminate; auto.
Qed.

Lemma selects_same_links els1 els2 n :
  same_links els1 els2 →
  selects els1 (ByClass "item-card") n = selects els2 (ByClass "item-card") n.
Proof.
  intros H. unfold selects. destruct (H (nodeId n)) as [Hc _].
  destruct (els1 !! nodeId n), (els2 !! nodeId n); simpl in Hc;
    try discriminate; [|reflexivity].
  injection Hc as Hc. unfold matches, has_class. rewrite Hc. reflexivity.
Qed.

Lemma discovered_in_same_links els1 els2 node :
  same_links els1 els2 → discovered_in els1 node = discovered_in els2 node.
Proof.
  intros H. unfold discovered_in. destruct (H (nodeId node)) as [Hc _].
  destruct (els1 !! nodeId node), (els2 !! nodeId node); simpl in Hc;
    try discriminate; [|reflexivity].
  injection Hc as Hc. unfold has_class. rewrite Hc. f_equal.
  apply filter_ext. intros n. apply selects_same_links. exact H.
Qed.

Section Pipeline.

Variable URL_hostname : string → option string.
Variable snapshot : Blocklist.

Lemma classify_run itemCard w :
  ∃ w',
    classify URL_hostname snapshot itemCard w = (Normal tt, w')
    ∧ page_step w w'
    ∧ (∀ j, j ≠ nodeId itemCard → dom_elements w' !! j = dom_elements w !! j)
    ∧ (∀ e, dom_elements w !! nodeId itemCard = Some e →
            has_attr "data-shop-blocker-processed" e = true →
            dom_elements w' !! nodeId itemCard = Some e)
    ∧ (∀ e, dom_elements w !! nodeId itemCard = Some e →
            has_attr "data-shop-blocker-processed" e = false →
            ∃ r, fst (getShopIdFromItemCard URL_hostname itemCard w)
                 = Normal r
                 ∧ dom_elements w' !! nodeId itemCard
                   = Some (classified snapshot r e)).
Proof.
  unfold classify, call_async.
  destruct (dom_elements w !! nodeId itemCard) as [e|] eqn:He.
  2:{ rewrite processItemCard_not_element by exact He. simpl.
      exists w. split; [reflexivity|]. split; [apply page_step_refl|].
      split; [auto|]. split; discriminate. }
  destruct (has_attr "data-shop-blocker-processed" e) eqn:Hp.
  { rewrite (processItemCard_processed _ _ _ _ _ He Hp). simpl.
    exists w. split; [reflexivity|]. split; [apply page_step_refl|].
    split; [auto|]. split.
    - intros e' [= <-] _. exact He.
    - intros e' [= <-]. congruence. }
  destruct (processItemCard_first URL_hostname _ snapshot _ _ He Hp)
    as (r & lines & Hr & ->).
  simpl. eexists. split; [reflexivity|]. split.
  { unfold page_step. simpl. repeat (split; [reflexivity|]).
    apply same_links_classified. exact He. }
  simpl. split; [|split].
  - intros j Hj. apply lookup_insert_ne. auto.
  - intros e' [= <-]. congruence.
  - intros e' [= <-] _. exists r. split; [exact Hr|].
    apply lookup_insert_eq.
Qed.

Lemma forEach_app {A} (l1 l2 : list A) (f : A → Js unit) w :
  forEach (l1 ++ l2) f w = (forEach l1 f ;; forEach l2 f) w.
Proof.
  revert w. induction l1 as [|x l1 IH]; intros w; [reflexivity|].
  simpl. unfold bind in *. destruct (f x w) as [[[]|err] w1].
  - rewrite IH. reflexivity.
  - reflexivity.
Qed.

(** A loop of classifications returns normally and is a page step. *)
Lemma forEach_classify_run l w :
  ∃ w',
    forEach l (classify URL_hostname snapshot) w = (Normal tt, w')
    ∧ page_step w w'.
Proof.
  revert w. induction l as [|c l IH]; intros w.
  - exists w. split; [reflexivity|apply page_step_refl].
  - destruct (classify_run c w) as (w1 & Hrun & Hstep & _).
    destruct (IH w1) as (w2 & Hrest & Hstep2).
    exists w2. simpl. unfold bind. rewrite Hrun. split; [exact Hrest|].
    eapply page_step_trans; eauto.
Qed.

(** An element that carries the processed mark is not touched again. *)
Lemma forEach_classify_keeps_processed l w i e :
  dom_elements w !! i = Some e →
  has_attr "data-shop-blocker-processed" e = true →
  dom_elements (snd (forEach l (classify URL_hostname snapshot) w)) !! i
  = Some e.
Proof.
  revert w. induction l as [|c l IH]; intros w He Hp; [exact He|].
  destruct (classify_run c w) as (w1 & Hrun & _ & Hother & Hdone & _).
  simpl. unfold bind. rewrite Hrun. apply IH; [|exact Hp].
  destruct (decide (i = nodeId c)) as [->|Hne].
  - apply Hdone; assumption.
  - rewrite Hother by exact Hne. exact He.
Qed.

(** A card of the loop that has not been classified before ends the loop
    classified against the snapshot. *)
Lemma forEach_classify_card l w c e :
  In c l →
  (∀ c', In c' l → nodeId c' = nodeId c → c' = c) →
  dom_elements w !! nodeId c = Some e →
  has_attr "data-shop-blocker-processed" e = false →
  ∃ r, fst (getShopIdFromItemCard URL_hostname c w) = Normal r
       ∧ dom_elements (snd (forEach l (classify URL_hostname snapshot) w))
           !! nodeId c
         = Some (classified snapshot r e).
Proof.
  revert w. induction l as [|c' l IH]; intros w Hin Huniq He Hp;
    [destruct Hin|].
  destruct (classify_run c' w) as (w1 & Hrun & Hstep & Hother & _ & Hfirst).
  simpl. unfold bind. rewrite Hrun.
  destruct (decide (nodeId c' = nodeId c)) as [Hid|Hne].
  - assert (c' = c) as -> by (apply Huniq; [left; reflexivity|exact Hid]).
    destruct (Hfirst e He Hp) as (r & Hr & He1).
    exists r. split; [exact Hr|].
    apply forEach_classify_keeps_processed; [exact He1|].
    apply classified_processed.
  - destruct Hin as [->|Hin]; [congruence|].
    destruct (IH w1) as (r & Hr & Hfinal).
    + exact Hin.
    + intros c'' Hc''. apply Huniq. right. exact Hc''.
    + rewrite Hother by auto. exact He.
    + exact Hp.
    + exists r. split; [|exact Hfinal].
      rewrite <- Hr.
      apply getShopIdFromItemCard_same_links.
      destruct Hstep as (_ & _ & _ & _ & _ & Hlinks). exact Hlinks.
Qed.

(** Nested loops whose inner lists depend on the page only through class
    lists flatten into one loop over the lists computed up front. *)
Lemma forEach_flat {B} (sel : gmap nat Element → B → list DomNode)
    (outer : B → Js unit) :
  (∀ els1 els2 b, same_links els1 els2 → sel els1 b = sel els2 b) →
  (∀ b w,
     outer b w
     = forEach (sel (dom_elements w) b) (classify URL_hostname snapshot) w) →
  ∀ bs w,
    forEach bs outer w
    = forEach (flat_map (sel (dom_elements w)) bs)
        (classify URL_hostname snapshot) w.
Proof.
  intros Hsel Houter bs. induction bs as [|b bs IH]; intros w;
    [reflexivity|].
  simpl. rewrite forEach_app. unfold bind. rewrite Houter.
  destruct (forEach_classify_run (sel (dom_elements w) b) w)
    as (w1 & -> & Hstep).
  rewrite IH. f_equal. apply flat_map_ext. intros b'.
  apply Hsel. apply same_links_sym.
  destruct Hstep as (_ & _ & _ & _ & _ & Hlinks). exact Hlinks.
Qed.

(** What the callback does for one added node. *)
Lemma added_node_run node w :
  (is_element <- is_element_node node ;;
   if is_element then
     is_card <- classList_contains node "item-card" ;;
     (if is_card
      then call_async (processItemCard URL_hostname node snapshot)
      else ret tt) ;;
     itemCards <- querySelectorAll node (ByClass "item-card") ;;
     forEach itemCards
       (fun itemCard =>
          call_async (processItemCard URL_hostname itemCard snapshot))
   else ret tt) w
  = forEach (discovered_in (dom_elements w) node)
      (classify URL_hostname snapshot) w.
Proof.
  unfold discovered_in. js_unfold.
  destruct (dom_elements w !! nodeId node) as [e|] eqn:He; [|reflexivity].
  js_unfold. rewrite ?He. js_unfold.
  destruct (has_class "item-card" e) eqn:Hc.
  - simpl. unfold bind.
    destruct (classify_run node w) as (w1 & Hrun & Hstep & _).
    unfold classify, call_async in Hrun |- *.
    injection Hrun as Hw1. subst w1.
    f_equal. apply filter_ext. intros n. apply selects_same_links.
    apply same_links_sym.
    destruct Hstep as (_ & _ & _ & _ & _ & Hlinks). exact Hlinks.
  - reflexivity.
Qed.

(** The callback is one loop of classifications, against the observer's
    snapshot, over the cards discovered in the batch. *)
Lemma observer_callback_run mutations w :
  observer_callback URL_hostname {| blockedShopsPromise := snapshot |}
    mutations w
  = forEach (discovered (dom_elements w) mutations)
      (classify URL_hostname snapshot) w.
Proof.
  unfold observer_callback, discovered. simpl.
  apply (forEach_flat
           (λ els mutation, flat_map (discovered_in els) (addedNodes mutation))).
  - intros els1 els2 mutation H. apply flat_map_ext. intros node.
    apply discovered_in_same_links. exact H.
  - intros mutation w'.
    apply (forEach_flat discovered_in).
    + intros els1 els2 node H. apply discovered_in_same_links. exact H.
    + intros node w''. apply added_node_run.
Qed.

End Pipeline.

(** C4. Setting up the pipeline reads the storage area once and never
    fails; the observer holds the blocklist read then (the empty one when
    the read rejected). Afterwards, for every batch and in every world,
    whatever the storage area holds by then: the callback returns
    normally without a storage call, and every card discovered in the
    batch that was not classified before ends up classified against the
    blocklist read at setup. (The side condition says that the batch does
    not hold two different nodes under one identity.) *)
Theorem observer_classifies_against_setup_snapshot
    (URL_hostname : string → option string) (w0 : World) :
  ∃ observer w0',
    observeNewItems w0 = (Normal observer, w0')
    ∧ blockedShopsPromise observer = read_view w0
    ∧ storage_calls w0' = storage_calls w0 ++ [LocalGet]
    ∧ ∀ (mutations : list MutationRecord) (w : World),
        fst (observer_callback URL_hostname observer mutations w) = Normal tt
        ∧ storage_calls
            (snd (observer_callback URL_hostname observer mutations w))
          = storage_calls w
        ∧ persisted (snd (observer_callback URL_hostname observer mutations w))
          = persisted w
        ∧ ∀ c e,
            In c (discovered (dom_elements w) mutations) →
            (∀ c', In c' (discovered (dom_elements w) mutations) →
                   nodeId c' = nodeId c → c' = c) →
            element_at w c = Some e →
            has_attr "data-shop-blocker-processed" e = false →
            ∃ r,
              fst (getShopIdFromItemCard URL_hostname c w) = Normal r
              ∧ element_at
                  (snd (observer_callback URL_hostname observer mutations w))
                  c
                = Some (classified (read_view w0) r e).
Proof.
  exists {| blockedShopsPromise := read_view w0 |}, (after_read w0).
  split.
  { unfold observeNewItems, bind. rewrite getAllBlocked_run. reflexivity. }
  split; [reflexivity|]. split; [reflexivity|].
  intros mutations w. rewrite observer_callback_run.
  destruct (forEach_classify_run URL_hostname (read_view w0)
              (discovered (dom_elements w) mutations) w)
    as (w' & Hrun & Hstep).
  split; [rewrite Hrun; reflexivity|].
  split; [rewrite Hrun; apply Hstep|].
  split; [rewrite Hrun; apply Hstep|].
  intros c e Hin Huniq He Hp.
  apply forEach_classify_card; assumption.
Qed.

(** The staleness this allows, on a concrete run. The pipeline is set up
    while the storage area is empty. Later the area holds a record for
    [foo] and a card of [foo] arrives: the callback leaves the card
    visible. The pass of the storage listener for that change is what
    hides it. *)
Example stale_snapshot_then_reconciled :
  ∃ observer w0',
    observeNewItems blank_world = (Normal observer, w0')
    ∧ (hidden
         <$> element_at
               (snd (observer_callback sample_URL_hostname observer
                       [ {| addedNodes := [card_node] |} ]
                       (with_storage (Some {[ "foo" := sample_record ]}) [] []
                          (page_with_card (card_element ∅ "")
                             "https://foo.booth.pm/items/1"))))
               card_node)
      = Some false
    ∧ (hidden
         <$> element_at
               (snd ((observer_callback sample_URL_hostname observer
                        [ {| addedNodes := [card_node] |} ] ;;
                      deliver_change None)
                       (with_storage (Some {[ "foo" := sample_record ]}) [] []
                          (page_with_card (card_element ∅ "")
                             "https://foo.booth.pm/items/1"))))
               card_node)
      = Some true.
Proof.
  eexists _, _. split; [reflexivity|].
  split; vm_compute; reflexivity.
Qed.

(** * Further properties *)

(** ** Passes of the storage listener compose *)

Lemma hide_show_element e : hide_element (show_element e) = hide_element e.
Proof.
  unfold show_element, hide_element, drop_attribute, put_attribute,
    put_display; simpl.
  rewrite insert_delete_eq. reflexivity.
Qed.

(** A later pass overrides an earlier one, element by element. *)
Lemma reconciled_reconciled blocked1 blocked2 e :
  reconciled blocked2 (reconciled blocked1 e) = reconciled blocked2 e.
Proof.
  unfold reconciled at 2.
  destruct (attributes e !! "data-shop-id") as [id|] eqn:Hid; [|reflexivity].
  destruct (String.eqb id "") eqn:Hempty; [reflexivity|].
  destruct (js_in id blocked1); unfold reconciled; simpl.
  - rewrite lookup_insert_ne by discriminate. rewrite Hid, Hempty.
    fold (hide_element e).
    destruct (js_in id blocked2);
      [apply hide_element_idempotent|apply show_hide_element].
  - rewrite lookup_delete_ne by discriminate. rewrite Hid, Hempty.
    fold (show_element e).
    destruct (js_in id blocked2);
      [apply hide_show_element|apply show_element_idempotent].
Qed.

(** A pass does not change which nodes the next pass selects. *)
Lemma annotated_cards_after_pass blocked els' w :
  (∀ i, els' !! i =
        if decide (i ∈ map nodeId (annotated_cards w))
        then reconciled blocked <$> dom_elements w !! i
        else dom_elements w !! i) →
  annotated_cards (with_elements els' w) = annotated_cards w.
Proof.
  intros Hlook. unfold annotated_cards. simpl.
  apply filter_ext. intros n. unfold selects. rewrite Hlook.
  destruct (dom_elements w !! nodeId n) as [e|]; [|case_decide; reflexivity].
  case_decide; [|reflexivity]. simpl.
  destruct (reconciled_frame blocked e) as (Hc & Hk & _).
  unfold has_class, has_attr. rewrite Hc, Hk by discriminate. reflexivity.
Qed.

(** The page after a notification for the key in the local area depends
    on that notification alone: whatever notification the listener handled
    just before, the outcome is the one of the later pass run by itself.
    In particular a pass run twice is a pass run once. *)
Theorem storage_listener_last_wins
    (earlier : Changes) (earlierArea : string) (change : StorageChange)
    (w : World) :
  (storage_listener earlier earlierArea ;;
   storage_listener {| blockedShops := Some change |} "local") w
  = storage_listener {| blockedShops := Some change |} "local" w.
Proof.
  unfold bind.
  destruct (decide (earlierArea = "local")) as [->|Harea].
  2:{ rewrite (storage_listener_ignored earlier) by auto. reflexivity. }
  destruct earlier as [[change1|]].
  2:{ rewrite (storage_listener_ignored {| blockedShops := None |}) by auto.
      reflexivity. }
  destruct (storage_listener_run change1 w) as (els1 & -> & Hlook1).
  destruct (storage_listener_run change (with_elements els1 w))
    as (els2 & -> & Hlook2).
  destruct (storage_listener_run change w) as (els & -> & Hlook).
  change (with_elements els2 (with_elements els1 w))
    with (with_elements els2 w).
  assert (els2 = els) as ->; [|reflexivity].
  apply map_eq. intros i.
  rewrite Hlook2, Hlook.
  rewrite (annotated_cards_after_pass _ _ _ Hlook1). simpl.
  rewrite Hlook1.
  case_decide; [|reflexivity].
  destruct (dom_elements w !! i) as [e|]; [|reflexivity].
  simpl. rewrite reconciled_reconciled. reflexivity.
Qed.

(** ** Cards whose shop link resolves *)

Lemma extractShopId_Some
    (URL_hostname : string → option string) (url : option string)
    (w : World) (id : string) :
  fst (extractShopId URL_hostname url w) = Normal (Some id) →
  ∃ u, url = Some u
       ∧ URL_hostname u = Some (id +:+ ".booth.pm")
       ∧ id ≠ "" ∧ dot_free id = true ∧ reserved id = false.
Proof.
  unfold extractShopId. destruct url as [u|]; [|discriminate].
  destruct (String.eqb u ""); [discriminate|].
  unfold new_URL_hostname. js_unfold.
  destruct (URL_hostname u) as [h|] eqn:Hh; [|discriminate].
  destruct (match_shop_host h) as [sub|] eqn:Hm; [|discriminate].
  destruct (reserved sub) eqn:Hr; [discriminate|].
  intros [= <-]. apply match_shop_host_Some in Hm as (-> & Hne & Hfree).
  exists u. auto.
Qed.

(** A shop id read from a card comes from the extractor, applied to the
    [href] of the card's shop link. *)
Lemma getShopIdFromItemCard_link
    (URL_hostname : string → option string) (itemCard : DomNode)
    (w : World) (id : string) :
  fst (getShopIdFromItemCard URL_hostname itemCard w) = Normal (Some id) →
  ∃ link e,
    shop_link (dom_elements w) itemCard = Some link
    ∧ In link (descendants itemCard)
    ∧ dom_elements w !! nodeId link = Some e
    ∧ has_class "item-card__shop-name-anchor" e = true
    ∧ fst (extractShopId URL_hostname (attributes e !! "href") w)
      = Normal (Some id).
Proof.
  unfold getShopIdFromItemCard. js_unfold.
  fold (shop_link (dom_elements w) itemCard).
  destruct (shop_link (dom_elements w) itemCard) as [link|] eqn:Hl;
    [|discriminate].
  assert (In link (descendants itemCard)
          ∧ selects (dom_elements w) (ByClass "item-card__shop-name-anchor")
              link = true) as [Hin Hsel].
  { unfold shop_link in Hl.
    destruct (List.filter _ _) as [|x l] eqn:Hf; [discriminate|].
    injection Hl as ->.
    apply filter_In. rewrite Hf. left. reflexivity. }
  unfold selects in Hsel. js_unfold.
  destruct (dom_elements w !! nodeId link) as [e|] eqn:He; [|discriminate].
  intros Hx. exists link, e. repeat split; auto.
Qed.

(** When a shop id is read from a card, the card has a shop link, the
    link's [href] parses to the host [id.booth.pm], and the id is a single
    non-empty label other than [accounts] and [www]. *)
Theorem getShopIdFromItemCard_sound
    (URL_hostname : string → option string) (itemCard : DomNode)
    (w : World) (id : string) :
  fst (getShopIdFromItemCard URL_hostname itemCard w) = Normal (Some id) →
  ∃ link e u,
    shop_link (dom_elements w) itemCard = Some link
    ∧ In link (descendants itemCard)
    ∧ element_at w link = Some e
    ∧ has_class "item-card__shop-name-anchor" e = true
    ∧ attributes e !! "href" = Some u
    ∧ URL_hostname u = Some (id +:+ ".booth.pm")
    ∧ id ≠ "" ∧ dot_free id = true
    ∧ id ≠ "accounts" ∧ id ≠ "www".
Proof.
  unfold element_at. intros Hid.
  destruct (getShopIdFromItemCard_link _ _ _ _ Hid)
    as (link & e & Hl & Hin & He & Hc & Hx).
  destruct (extractShopId_Some _ _ _ _ Hx)
    as (u & Hu & Hh & Hne & Hfree & Hres).
  exists link, e, u. repeat split; auto.
  - intros ->. discriminate Hres.
  - intros ->. discriminate Hres.
Qed.

Lemma getShopIdFromItemCard_sound_witness :
  ∃ link e u,
    shop_link
      (dom_elements
         (page_with_card (card_element ∅ "") "https://foo.booth.pm/items/1"))
      card_node = Some link
    ∧ element_at
        (page_with_card (card_element ∅ "") "https://foo.booth.pm/items/1")
        link = Some e
    ∧ attributes e !! "href" = Some u
    ∧ sample_URL_hostname u = Some "foo.booth.pm".
Proof.
  destruct (getShopIdFromItemCard_sound sample_URL_hostname card_node
              (page_with_card (card_element ∅ "")
                 "https://foo.booth.pm/items/1") "foo")
    as (link & e & u & Hl & _ & He & _ & Hu & Hh & _).
  - vm_compute. reflexivity.
  - exists link, e, u. repeat split; assumption.
Defined.

(** A first classification of a card whose link resolves to [id]: the call
    returns normally; the card gets the processed mark and the annotation
    [data-shop-id = id]; it is hidden (display [none] and blocked marker)
    when [id in blockedShops] holds, and keeps its inline display and
    whatever blocked marker it had when not; its class list, every other
    element and the storage area are untouched. *)
Theorem processItemCard_resolved
    (URL_hostname : string → option string) (itemCard : DomNode)
    (blockedShops : Blocklist) (w : World) (e : Element) (id : string) :
  element_at w itemCard = Some e →
  has_attr "data-shop-blocker-processed" e = false →
  fst (getShopIdFromItemCard URL_hostname itemCard w) = Normal (Some id) →
  fst (processItemCard URL_hostname itemCard blockedShops w) = Normal tt
  ∧ (∃ e',
       element_at (snd (processItemCard URL_hostname itemCard blockedShops w))
         itemCard = Some e'
       ∧ classList e' = classList e
       ∧ attributes e' !! "data-shop-blocker-processed" = Some "true"
       ∧ attributes e' !! "data-shop-id" = Some id
       ∧ (if js_in id blockedShops
          then style_display e' = "none"
               ∧ attributes e' !! "data-blocked-shop" = Some "true"
               ∧ hidden e' = true
          else style_display e' = style_display e
               ∧ attributes e' !! "data-blocked-shop"
                 = attributes e !! "data-blocked-shop"))
  ∧ (∀ n, nodeId n ≠ nodeId itemCard →
          element_at (snd (processItemCard URL_hostname itemCard blockedShops w))
            n = element_at w n)
  ∧ persisted (snd (processItemCard URL_hostname itemCard blockedShops w))
    = persisted w
  ∧ storage_calls (snd (processItemCard URL_hostname itemCard blockedShops w))
    = storage_calls w.
Proof.
  unfold element_at. intros He Hp Hid.
  destruct (getShopIdFromItemCard_link _ _ _ _ Hid)
    as (link & e0 & _ & _ & _ & _ & Hx).
  destruct (extractShopId_Some _ _ _ _ Hx) as (u & _ & _ & Hne & _).
  apply String.eqb_neq in Hne.
  destruct (processItemCard_first URL_hostname _ blockedShops _ _ He Hp)
    as (r & lines & Hr & ->).
  rewrite Hid in Hr. injection Hr as Hr. subst r. simpl.
  split; [reflexivity|]. split; [|split; [|split; reflexivity]].
  - rewrite lookup_insert_eq. eexists. split; [reflexivity|].
    unfold classified. rewrite Hne.
    destruct (js_in id blockedShops); simpl.
    + rewrite !(lookup_insert_ne _ "data-blocked-shop") by discriminate.
      rewrite lookup_insert_ne by discriminate.
      rewrite !lookup_insert_eq.
      repeat split. unfold hidden, has_attr. simpl.
      rewrite lookup_insert_eq. reflexivity.
    + rewrite lookup_insert_ne by discriminate.
      rewrite !lookup_insert_eq.
      rewrite !lookup_insert_ne by discriminate. repeat split.
  - intros n Hn. rewrite lookup_insert_ne by auto. reflexivity.
Qed.

Lemma processItemCard_resolved_witness :
  ∃ e',
    element_at
      (snd (processItemCard sample_URL_hostname card_node
              {[ "foo" := sample_record ]}
              (page_with_card (card_element ∅ "")
                 "https://foo.booth.pm/items/1")))
      card_node = Some e'
    ∧ attributes e' !! "data-shop-id" = Some "foo"
    ∧ hidden e' = true.
Proof.
  destruct (processItemCard_resolved sample_URL_hostname card_node
              {[ "foo" := sample_record ]}
              (page_with_card (card_element ∅ "")
                 "https://foo.booth.pm/items/1")
              (card_element ∅ "") "foo")
    as (_ & (e' & He' & _ & _ & Hid & Hhide) & _).
  - reflexivity.
  - reflexivity.
  - vm_compute. reflexivity.
  - exists e'. split; [exact He'|]. split; [exact Hid|].
    change (js_in "foo" ({[ "foo" := sample_record ]} : Blocklist))
      with true in Hhide.
    apply Hhide.
Defined.

(** ** The initial pass *)

Section InitialPass.

Variable URL_hostname : string → option string.
Variable snapshot : Blocklist.

(** Every element of a loop of classifications carries the processed mark
    when the loop is over. *)
Lemma forEach_classify_marks l w c e :
  In c l →
  dom_elements w !! nodeId c = Some e →
  ∃ e',
    dom_elements (snd (forEach l (classify URL_hostname snapshot) w))
      !! nodeId c = Some e'
    ∧ has_attr "data-shop-blocker-processed" e' = true.
Proof.
  revert w e. induction l as [|c' l IH]; intros w e Hin He; [destruct Hin|].
  destruct (classify_run URL_hostname snapshot c' w)
    as (w1 & Hrun & _ & Hother & Hdone & Hfirst).
  simpl. unfold bind. rewrite Hrun.
  destruct (decide (nodeId c' = nodeId c)) as [Hid|Hne].
  - rewrite Hid in Hdone, Hfirst.
    destruct (has_attr "data-shop-blocker-processed" e) eqn:Hp.
    + exists e. split; [|exact Hp].
      apply forEach_classify_keeps_processed; auto.
    + destruct (Hfirst e He Hp) as (r & _ & He1).
      exists (classified snapshot r e). split; [|apply classified_processed].
      apply forEach_classify_keeps_processed; [exact He1|].
      apply classified_processed.
  - destruct Hin as [->|Hin]; [congruence|].
    apply (IH w1 e Hin). rewrite Hother by auto. exact He.
Qed.

(** Elements that no node of the loop refers to are left as they were. *)
Lemma forEach_classify_others l w i :
  (∀ c, In c l → nodeId c ≠ i) →
  dom_elements (snd (forEach l (classify URL_hostname snapshot) w)) !! i
  = dom_elements w !! i.
Proof.
  revert w. induction l as [|c' l IH]; intros w Hall; [reflexivity|].
  destruct (classify_run URL_hostname snapshot c' w)
    as (w1 & Hrun & _ & Hother & _).
  simpl. unfold bind. rewrite Hrun. rewrite IH.
  - apply Hother. intros ->. apply (Hall c'); [left|]; reflexivity.
  - intros c Hc. apply Hall. right. exact Hc.
Qed.

End InitialPass.

(** The item cards of the document, as [processAllItemCards] selects
    them. *)
Lemma item_cards_In w n e :
  In n (descendants (document w)) →
  dom_elements w !! nodeId n = Some e →
  has_class "item-card" e = true →
  In n (List.filter (selects (dom_elements w) (ByClass "item-card"))
          (descendants (document w))).
Proof.
  intros Hin He Hc. apply filter_In. split; [exact Hin|].
  unfold selects. rewrite He. exact Hc.
Qed.

Lemma processAllItemCards_run
    (URL_hostname : string → option string) (w : World) :
  processAllItemCards URL_hostname w
  = forEach
      (List.filter (selects (dom_elements w) (ByClass "item-card"))
         (descendants (document w)))
      (classify URL_hostname (read_view w)) (after_read w).
Proof.
  unfold processAllItemCards, bind. rewrite getAllBlocked_run.
  reflexivity.
Qed.

(** The initial pass reads the storage area once, writes nothing to it and
    returns normally. When it is over every item card of the document
    carries the processed mark; a card that was not classified before is
    classified against the blocklist that was read (the empty one when the
    read rejected); elements that are not item cards are as they were.
    (The side condition says that the document does not hold two different
    nodes under one identity.) *)
Theorem processAllItemCards_classifies_document
    (URL_hostname : string → option string) (w : World) :
  fst (processAllItemCards URL_hostname w) = Normal tt
  ∧ storage_calls (snd (processAllItemCards URL_hostname w))
    = storage_calls w ++ [LocalGet]
  ∧ persisted (snd (processAllItemCards URL_hostname w)) = persisted w
  ∧ (∀ n e,
       In n (descendants (document w)) →
       element_at w n = Some e →
       has_class "item-card" e = true →
       ∃ e',
         element_at (snd (processAllItemCards URL_hostname w)) n = Some e'
         ∧ has_attr "data-shop-blocker-processed" e' = true)
  ∧ (∀ n e,
       In n (descendants (document w)) →
       (∀ n', In n' (descendants (document w)) →
              nodeId n' = nodeId n → n' = n) →
       element_at w n = Some e →
       has_class "item-card" e = true →
       has_attr "data-shop-blocker-processed" e = false →
       ∃ r,
         fst (getShopIdFromItemCard URL_hostname n w) = Normal r
         ∧ element_at (snd (processAllItemCards URL_hostname w)) n
           = Some (classified (read_view w) r e))
  ∧ (∀ i e,
       dom_elements w !! i = Some e →
       has_class "item-card" e = false →
       dom_elements (snd (processAllItemCards URL_hostname w)) !! i = Some e).
Proof.
  rewrite processAllItemCards_run. unfold element_at.
  set (cards := List.filter (selects (dom_elements w) (ByClass "item-card"))
                  (descendants (document w))).
  destruct (forEach_classify_run URL_hostname (read_view w) cards
              (after_read w)) as (w' & Hrun & Hstep).
  split; [rewrite Hrun; reflexivity|].
  split; [rewrite Hrun; apply Hstep|].
  split; [rewrite Hrun; apply Hstep|].
  split; [|split].
  - intros n e Hin He Hc.
    apply (forEach_classify_marks URL_hostname (read_view w) cards
             (after_read w) n e).
    + apply item_cards_In with (e := e); assumption.
    + exact He.
  - intros n e Hin Huniq He Hc Hp.
    destruct (forEach_classify_card URL_hostname (read_view w) cards
                (after_read w) n e) as (r & Hr & Hfinal).
    + apply item_cards_In with (e := e); assumption.
    + intros n' Hn'. apply Huniq. apply filter_In in Hn'. apply Hn'.
    + exact He.
    + exact Hp.
    + exists r. split; [|exact Hfinal].
      rewrite <- Hr. apply getShopIdFromItemCard_same_links.
      intros i. auto.
  - intros i e He Hc.
    rewrite forEach_classify_others; [exact He|].
    intros c Hin <-. apply filter_In in Hin as [_ Hsel].
    unfold selects in Hsel. rewrite He in Hsel. simpl in Hsel. congruence.
Qed.

(** ** Where the content script runs *)

Lemma substring_all (s : string) (m : nat) :
  (String.length s <= m)%nat → String.substring 0 m s = s.
Proof.
  revert m. induction s as [|c s IH]; intros [|m] Hm; simpl in *;
    try reflexivity; try lia.
  rewrite IH by lia. reflexivity.
Qed.

Lemma substring_split (s : string) (n : nat) :
  (n <= String.length s)%nat →
  s = String.substring 0 n s
      +:+ String.substring n (String.length s - n) s.
Proof.
  revert n. induction s as [|c s IH]; intros [|n] Hn; simpl in *;
    try reflexivity; try lia.
  - rewrite substring_all by lia. reflexivity.
  - transitivity
      (String c (String.substring 0 n s
                 +:+ String.substring n (String.length s - n) s));
      [|reflexivity].
    f_equal. apply IH. lia.
Qed.

Lemma string_length_app (p s : string) :
  String.length (p +:+ s) = (String.length p + String.length s)%nat.
Proof.
  induction p as [|c p IH]; [reflexivity|].
  change (S (String.length (p +:+ s))
          = S (String.length p + String.length s)).
  rewrite IH. reflexivity.
Qed.

Lemma substring_skip (p s : string) (m : nat) :
  String.substring (String.length p) m (p +:+ s) = String.substring 0 m s.
Proof. induction p as [|c p IH]; [reflexivity|exact IH]. Qed.

Lemma substring_suffix (p s : string) :
  String.substring (String.length (p +:+ s) - String.length s)
    (String.length s) (p +:+ s) = s.
Proof.
  rewrite string_length_app.
  replace (String.length p + String.length s - String.length s)%nat
    with (String.length p) by lia.
  rewrite substring_skip. apply substring_all. lia.
Qed.

(** [init] goes on exactly on the host [booth.pm] and on the hosts that end
    in [.booth.pm]; on every other host it returns without reading the
    storage area or touching the page. *)
Theorem init_only_on_booth_hosts
    (URL_hostname : string → option string) (location_hostname : string)
    (w : World) :
  (isItemListPage location_hostname = true
   ↔ location_hostname = "booth.pm"
     ∨ ∃ p, location_hostname = p +:+ ".booth.pm")
  ∧ (isItemListPage location_hostname = false →
     init URL_hostname location_hostname w = (Normal None, w)).
Proof.
  split.
  - unfold isItemListPage. rewrite orb_true_iff, !String.eqb_eq. split.
    + intros [->|Hsuffix]; [left; reflexivity|right].
      destruct (le_lt_dec 9 (String.length location_hostname)) as [Hlen|Hlen].
      * exists (String.substring 0 (String.length location_hostname - 9)
                  location_hostname).
        pose proof (substring_split location_hostname
                      (String.length location_hostname - 9)) as Hsplit.
        replace (String.length location_hostname
                 - (String.length location_hostname - 9))%nat
          with 9%nat in Hsplit by lia.
        rewrite Hsuffix in Hsplit. apply Hsplit. lia.
      * exists "".
        replace (String.length location_hostname - 9)%nat with 0%nat
          in Hsuffix by lia.
        rewrite substring_all in Hsuffix by lia. exact Hsuffix.
    + intros [->|[p ->]]; [left; reflexivity|right].
      apply (substring_suffix p ".booth.pm").
  - intros Hoff. unfold init. rewrite Hoff. reflexivity.
Qed.



(** ** Reading the store *)

Lemma js_in_js_get {V} (k : string) (o : gmap string V) :
  js_in k o = true ↔ js_get k o ≠ Undefined.
Proof.
  unfold js_in, js_get. destruct (o !! k); [split; [discriminate|reflexivity]|].
  destruct (inherited k); split; congruence.
Qed.

(** [isBlocked] and [getShopInfo] read the storage area once and change
    nothing else, also when the read rejects. They agree with each other:
    [isBlocked] answers true exactly when [getShopInfo] does not answer
    null. For a shop id that names no inherited property, [isBlocked]
    answers true exactly when the read went through and the id is a key of
    the stored blocklist, and [getShopInfo] answers its record then. For a
    name every object inherits, [isBlocked] answers true in every world. *)
Theorem store_lookups_agree (shopId : string) (w : World) :
  ∃ blocked info,
    BoothShopStorage.isBlocked shopId w = (Normal blocked, after_read w)
    ∧ BoothShopStorage.getShopInfo shopId w = (Normal info, after_read w)
    ∧ (blocked = true ↔ info ≠ Undefined)
    ∧ (inherited shopId = true → blocked = true)
    ∧ (inherited shopId = false →
       (blocked = true
        ↔ fault_at 0 w = false ∧ shopId ∈ dom (blocklist_of (persisted w)))
       ∧ info = match (if fault_at 0 w then None
                       else blocklist_of (persisted w) !! shopId) with
                | Some rec => Own rec
                | None => Undefined
                end).
Proof.
  unfold BoothShopStorage.isBlocked, BoothShopStorage.getShopInfo, bind.
  rewrite getAllBlocked_run. eexists _, _.
  split; [reflexivity|]. split; [reflexivity|].
  split; [apply js_in_js_get|]. unfold js_in, js_get, read_view.
  split.
  - intros ->. destruct (_ !! shopId); reflexivity.
  - intros ->. rewrite elem_of_dom.
    destruct (fault_at 0 w).
    + rewrite lookup_empty. split; [|reflexivity].
      split; [discriminate|]. intros [[=] _].
    + destruct (blocklist_of (persisted w) !! shopId) as [rec|].
      * split; [|reflexivity]. split; eauto.
      * split; [|reflexivity]. split; [discriminate|].
        intros [_ [? [=]]].
Qed.

(** ** Store operations in sequence *)

Lemma fault_at_after_read_write i value line w :
  fault_at i (after_read_write value line w) = fault_at (2 + i) w.
Proof. unfold fault_at. simpl. apply (nth_drop 2 i). Qed.

Lemma read_view_after_write value line w :
  fault_at 1 w = false → fault_at 2 w = false →
  read_view (after_read_write value line w) = value.
Proof.
  intros H1 H2. unfold read_view.
  rewrite fault_at_after_read_write, persisted_after_read_write. simpl.
  rewrite H1, H2. reflexivity.
Qed.

Lemma delete_js_assign {V} (k : string) (v : V) (o : gmap string V) :
  delete k (js_assign k v o) = delete k o.
Proof.
  unfold js_assign.
  destruct (o !! k); [|destruct (String.eqb k "__proto__")];
    try reflexivity; apply delete_insert_eq.
Qed.

Lemma bind_run {A B} (m : Js A) (k : A → Js B) w a w1 :
  m w = (Normal a, w1) → bind m k w = k a w1.
Proof. intros H. unfold bind. rewrite H. reflexivity. Qed.

Lemma blockShop_ok shopId shopName why w :
  fault_at 1 w = false →
  BoothShopStorage.blockShop shopId shopName why w
  = (Normal true,
     after_read_write
       (js_assign shopId
          {| name := shopName; reason := why; timestamp := clock w |}
          (read_view w))
       "Failed to block shop:" w).
Proof. intros H. rewrite blockShop_run, H. reflexivity. Qed.

Lemma unblockShop_ok shopId w :
  fault_at 1 w = false →
  BoothShopStorage.unblockShop shopId w
  = (Normal true,
     after_read_write (js_delete shopId (read_view w))
       "Failed to unblock shop:" w).
Proof. intros H. rewrite unblockShop_run, H. reflexivity. Qed.

Lemma persisted_after_write value line w :
  fault_at 1 w = false →
  persisted (after_read_write value line w) = Some value.
Proof. intros H. rewrite persisted_after_read_write, H. reflexivity. Qed.

(** What is blocked can be looked up: with no storage fault, after
    [blockShop] on a shop id other than [__proto__], [getShopInfo] answers
    the record made of the arguments and the clock, and [isBlocked] answers
    true. *)
Theorem blockShop_then_lookup (shopId shopName why : string) (w : World) :
  no_faults w →
  shopId ≠ "__proto__" →
  fst ((BoothShopStorage.blockShop shopId shopName why ;;
        BoothShopStorage.getShopInfo shopId) w)
  = Normal (Own {| name := shopName; reason := why; timestamp := clock w |})
  ∧ fst ((BoothShopStorage.blockShop shopId shopName why ;;
          BoothShopStorage.isBlocked shopId) w)
    = Normal true.
Proof.
  intros Hfaults Hproto.
  pose proof (no_faults_fault_at w 1 Hfaults) as Hf1.
  pose proof (no_faults_fault_at w 2 Hfaults) as Hf2.
  rewrite !(bind_run _ _ _ _ _ (blockShop_ok shopId shopName why w Hf1)).
  unfold BoothShopStorage.getShopInfo, BoothShopStorage.isBlocked.
  rewrite !(bind_run _ _ _ _ _ (getAllBlocked_run _)).
  rewrite read_view_after_write by assumption.
  unfold js_get, js_in, ret. rewrite js_assign_same by exact Hproto.
  split; reflexivity.
Qed.

Lemma blockShop_then_lookup_witness :
  fst ((BoothShopStorage.blockShop "foo" "Foo" "spam" ;;
        BoothShopStorage.getShopInfo "foo") (store_world None []))
  = Normal (Own {| name := "Foo"; reason := "spam";
                   timestamp := 1700000000999 |}).
Proof.
  destruct (blockShop_then_lookup "foo" "Foo" "spam" (store_world None []))
    as [Hinfo _].
  - constructor.
  - discriminate.
  - exact Hinfo.
Defined.

(** Blocking and then unblocking a shop id, with no storage fault, leaves
    the blocklist without that id and every other record as it was; when
    the id was not blocked before, the blocklist is back to what it was. *)
Theorem blockShop_then_unblockShop (shopId shopName why : string) (w : World) :
  no_faults w →
  fst ((BoothShopStorage.blockShop shopId shopName why ;;
        BoothShopStorage.unblockShop shopId) w) = Normal true
  ∧ stored_after
      (BoothShopStorage.blockShop shopId shopName why ;;
       BoothShopStorage.unblockShop shopId) w
    = delete shopId (blocklist_of (persisted w))
  ∧ (blocklist_of (persisted w) !! shopId = None →
     stored_after
       (BoothShopStorage.blockShop shopId shopName why ;;
        BoothShopStorage.unblockShop shopId) w
     = blocklist_of (persisted w)).
Proof.
  intros Hfaults.
  pose proof (no_faults_fault_at w 0 Hfaults) as Hf0.
  pose proof (no_faults_fault_at w 1 Hfaults) as Hf1.
  pose proof (no_faults_fault_at w 2 Hfaults) as Hf2.
  pose proof (no_faults_fault_at w 3 Hfaults) as Hf3.
  assert (stored_after
            (BoothShopStorage.blockShop shopId shopName why ;;
             BoothShopStorage.unblockShop shopId) w
          = delete shopId (blocklist_of (persisted w))) as Hstored.
  { unfold stored_after.
    rewrite (bind_run _ _ _ _ _ (blockShop_ok shopId shopName why w Hf1)).
    rewrite unblockShop_ok
      by (rewrite fault_at_after_read_write; exact Hf3).
    cbn [snd].
    rewrite persisted_after_write
      by (rewrite fault_at_after_read_write; exact Hf3).
    rewrite read_view_after_write by assumption.
    rewrite read_view_ok by exact Hf0. cbn [blocklist_of].
    apply delete_js_assign. }
  split; [|split].
  - rewrite (bind_run _ _ _ _ _ (blockShop_ok shopId shopName why w Hf1)).
    rewrite unblockShop_ok
      by (rewrite fault_at_after_read_write; exact Hf3).
    reflexivity.
  - exact Hstored.
  - intros Habsent. rewrite Hstored. apply delete_id. exact Habsent.
Qed.

Lemma blockShop_then_unblockShop_witness :
  stored_after
    (BoothShopStorage.blockShop "foo" "Foo" "spam" ;;
     BoothShopStorage.unblockShop "foo")
    (store_world (Some {[ "bar" := sample_record ]}) [])
  = {[ "bar" := sample_record ]}.
Proof.
  destruct (blockShop_then_unblockShop "foo" "Foo" "spam"
              (store_world (Some {[ "bar" := sample_record ]}) []))
    as (_ & _ & Hback).
  - constructor.
  - apply Hback. vm_compute. reflexivity.
Defined.

(** After [unblockShop], with no storage fault, the shop id is no key of
    the blocklist: [getShopInfo] answers null and [isBlocked] false, unless
    the id names an inherited property, which both still find. Unblocking a
    second time changes nothing. *)
Theorem unblockShop_then_lookup (shopId : string) (w : World) :
  no_faults w →
  stored_after (BoothShopStorage.unblockShop shopId) w !! shopId = None
  ∧ fst ((BoothShopStorage.unblockShop shopId ;;
          BoothShopStorage.isBlocked shopId) w)
    = Normal (inherited shopId)
  ∧ fst ((BoothShopStorage.unblockShop shopId ;;
          BoothShopStorage.getShopInfo shopId) w)
    = Normal (if inherited shopId then Builtin else Undefined)
  ∧ stored_after
      (BoothShopStorage.unblockShop shopId ;;
       BoothShopStorage.unblockShop shopId) w
    = stored_after (BoothShopStorage.unblockShop shopId) w.
Proof.
  intros Hfaults.
  pose proof (no_faults_fault_at w 1 Hfaults) as Hf1.
  pose proof (no_faults_fault_at w 2 Hfaults) as Hf2.
  pose proof (no_faults_fault_at w 3 Hfaults) as Hf3.
  unfold stored_after.
  rewrite !(bind_run _ _ _ _ _ (unblockShop_ok shopId w Hf1)).
  unfold BoothShopStorage.isBlocked, BoothShopStorage.getShopInfo.
  rewrite !(bind_run _ _ _ _ _ (getAllBlocked_run _)).
  rewrite unblockShop_ok by exact Hf1.
  rewrite unblockShop_ok by (rewrite fault_at_after_read_write; exact Hf3).
  cbn [snd].
  rewrite persisted_after_write by exact Hf1.
  rewrite persisted_after_write
    by (rewrite fault_at_after_read_write; exact Hf3).
  rewrite read_view_after_write by assumption.
  unfold js_in, js_get, js_delete, ret. cbn [blocklist_of fst].
  rewrite lookup_delete_eq, delete_delete_eq. repeat split.
Qed.

Lemma unblockShop_then_lookup_witness :
  fst ((BoothShopStorage.unblockShop "foo" ;;
        BoothShopStorage.isBlocked "foo")
         (store_world (Some {[ "foo" := sample_record ]}) []))
  = Normal false.
Proof.
  destruct (unblockShop_then_lookup "foo"
              (store_world (Some {[ "foo" := sample_record ]}) []))
    as (_ & Hblocked & _).
  - constructor.
  - exact Hblocked.
Defined.

(** The keys of the blocklist, when the read of the operation goes
    through: [updateReason] never adds or removes a key, whatever becomes
    of its write; a successful [unblockShop] removes its key and no other;
    a successful [blockShop] adds its key and no other, except that for the
    id [__proto__] (when no record of that name is stored) it answers true
    and stores the blocklist unchanged. *)
Theorem store_key_sets (shopId shopName why : string) (w : World) :
  fault_at 0 w = false →
  dom (stored_after (BoothShopStorage.updateReason shopId why) w)
  = dom (blocklist_of (persisted w))
  ∧ (fault_at 1 w = false →
     dom (stored_after (BoothShopStorage.unblockShop shopId) w)
     = dom (blocklist_of (persisted w)) ∖ {[ shopId ]})
  ∧ (fault_at 1 w = false → shopId ≠ "__proto__" →
     dom (stored_after (BoothShopStorage.blockShop shopId shopName why) w)
     = {[ shopId ]} ∪ dom (blocklist_of (persisted w)))
  ∧ (fault_at 1 w = false → shopId = "__proto__" →
     blocklist_of (persisted w) !! shopId = None →
     fst (BoothShopStorage.blockShop shopId shopName why w) = Normal true
     ∧ stored_after (BoothShopStorage.blockShop shopId shopName why) w
       = blocklist_of (persisted w)).
Proof.
  intros Hread. unfold stored_after.
  rewrite updateReason_run, unblockShop_run, blockShop_run.
  rewrite read_view_ok by exact Hread. cbn [fst snd].
  split; [|split; [|split]].
  - unfold js_get.
    destruct (blocklist_of (persisted w) !! shopId) as [rec|] eqn:Hrec;
      [|destruct (inherited shopId)]; cbn [snd];
      try reflexivity; rewrite persisted_after_read_write;
      destruct (fault_at 1 w); try reflexivity.
    cbn [blocklist_of]. apply dom_insert_lookup_L. eauto.
  - intros Hwrite. rewrite persisted_after_write by exact Hwrite.
    cbn [blocklist_of]. unfold js_delete. apply dom_delete_L.
  - intros Hwrite Hproto. rewrite persisted_after_write by exact Hwrite.
    cbn [blocklist_of]. unfold js_assign.
    apply String.eqb_neq in Hproto. rewrite Hproto.
    destruct (_ !! shopId); apply dom_insert_L.
  - intros Hwrite -> Hnone. rewrite Hwrite.
    rewrite persisted_after_write by exact Hwrite.
    cbn [blocklist_of]. unfold js_assign. rewrite Hnone.
    split; reflexivity.
Qed.

Lemma store_key_sets_witness :
  dom (stored_after (BoothShopStorage.blockShop "foo" "Foo" "")
         (store_world (Some {[ "bar" := sample_record ]}) []))
  = {[ "foo" ]} ∪ dom ({[ "bar" := sample_record ]} : Blocklist).
Proof.
  destruct (store_key_sets "foo" "Foo" ""
              (store_world (Some {[ "bar" := sample_record ]}) []))
    as (_ & _ & Hblock & _).
  - reflexivity.
  - apply Hblock; [reflexivity|discriminate].
Defined.

Lemma updateReason_ok shopId why w rec :
  fault_at 0 w = false → fault_at 1 w = false →
  blocklist_of (persisted w) !! shopId = Some rec →
  BoothShopStorage.updateReason shopId why w
  = (Normal true,
     after_read_write
       (<[shopId := BoothShopStorage.set_reason why rec]>
          (blocklist_of (persisted w)))
       "Failed to update reason:" w).
Proof.
  intros Hread Hwrite Hrec. rewrite updateReason_run.
  rewrite read_view_ok by exact Hread. unfold js_get.
  rewrite Hrec, Hwrite. reflexivity.
Qed.

(** With no storage fault, after [updateReason] on a blocked shop
    [getShopInfo] answers the record with the new reason and the name and
    timestamp it had; and of two reason updates in a row the second one
    decides what is stored. *)
Theorem updateReason_then_lookup
    (shopId why : string) (w : World) (rec : ShopRecord) :
  no_faults w →
  blocklist_of (persisted w) !! shopId = Some rec →
  fst ((BoothShopStorage.updateReason shopId why ;;
        BoothShopStorage.getShopInfo shopId) w)
  = Normal (Own {| name := name rec; reason := why;
                   timestamp := timestamp rec |})
  ∧ ∀ why',
      stored_after
        (BoothShopStorage.updateReason shopId why ;;
         BoothShopStorage.updateReason shopId why') w
      = stored_after (BoothShopStorage.updateReason shopId why') w.
Proof.
  intros Hfaults Hrec.
  pose proof (no_faults_fault_at w 0 Hfaults) as Hf0.
  pose proof (no_faults_fault_at w 1 Hfaults) as Hf1.
  pose proof (no_faults_fault_at w 2 Hfaults) as Hf2.
  pose proof (no_faults_fault_at w 3 Hfaults) as Hf3.
  pose proof (updateReason_ok shopId why w rec Hf0 Hf1 Hrec) as Hfirst.
  split.
  - rewrite (bind_run _ _ _ _ _ Hfirst).
    unfold BoothShopStorage.getShopInfo.
    rewrite (bind_run _ _ _ _ _ (getAllBlocked_run _)).
    rewrite read_view_after_write by assumption.
    unfold js_get, ret. rewrite lookup_insert_eq. reflexivity.
  - intros why'. unfold stored_after.
    rewrite (bind_run _ _ _ _ _ Hfirst).
    rewrite (updateReason_ok shopId why' w rec Hf0 Hf1 Hrec).
    rewrite (updateReason_ok shopId why' _
               (BoothShopStorage.set_reason why rec)).
    + cbn [snd]. rewrite persisted_after_write
        by (rewrite fault_at_after_read_write; exact Hf3).
      rewrite !persisted_after_write by exact Hf1. cbn [blocklist_of].
      rewrite insert_insert_eq. reflexivity.
    + rewrite fault_at_after_read_write. exact Hf2.
    + rewrite fault_at_after_read_write. exact Hf3.
    + rewrite persisted_after_write by exact Hf1. cbn [blocklist_of].
      apply lookup_insert_eq.
Qed.

Lemma updateReason_then_lookup_witness :
  fst ((BoothShopStorage.updateReason "foo" "duplicates" ;;
        BoothShopStorage.getShopInfo "foo")
         (store_world (Some {[ "foo" := sample_record ]}) []))
  = Normal (Own {| name := "Shop"; reason := "duplicates";
                   timestamp := 1700000000000 |}).
Proof.
  destruct (updateReason_then_lookup "foo" "duplicates"
              (store_world (Some {[ "foo" := sample_record ]}) [])
              sample_record) as [Hinfo _].
  - constructor.
  - vm_compute. reflexivity.
  - exact Hinfo.
Defined.

(** ** The shop page *)

(** The shop page and the item cards name a shop alike: on a page whose
    URL [u] parses to the page's host, [getCurrentShopInfo] succeeds and
    sets the current shop id to [id] exactly when the extractor returns
    [id] for [u]; when it does not succeed it leaves the page's variables
    as they were. *)
Theorem getCurrentShopInfo_agrees_with_extractShopId
    (URL_hostname : string → option string) (host : ShopPage.Host)
    (p : ShopPage.Page) (u : string) (w : World) (id : string) :
  URL_hostname u = Some (ShopPage.location_hostname host) →
  u ≠ "" →
  (fst (ShopPage.getCurrentShopInfo host p) = true
   ∧ ShopPage.currentShopId (snd (ShopPage.getCurrentShopInfo host p))
     = Some id
   ↔ fst (extractShopId URL_hostname (Some u) w) = Normal (Some id))
  ∧ (fst (ShopPage.getCurrentShopInfo host p) = false →
     snd (ShopPage.getCurrentShopInfo host p) = p).
Proof.
  intros Hu Hne. apply String.eqb_neq in Hne.
  unfold ShopPage.getCurrentShopInfo, extractShopId, new_URL_hostname.
  rewrite Hne, Hu. js_unfold.
  destruct (match_shop_host (ShopPage.location_hostname host)) as [sub|];
    [destruct (reserved sub)|]; simpl.
  - split; [|reflexivity]. split; [intros [[=] _]|discriminate].
  - split; [|discriminate]. split.
    + intros [_ [= ->]]. reflexivity.
    + intros [= ->]. auto.
  - split; [|reflexivity]. split; [intros [[=] _]|discriminate].
Qed.

Lemma getCurrentShopInfo_agrees_with_extractShopId_witness :
  fst (ShopPage.getCurrentShopInfo
         {| ShopPage.location_hostname := "foo.booth.pm";
            ShopPage.shopNameElement := Some "Foo";
            ShopPage.insertionPoint := Some ShopPage.GlobalNav |}
         (ShopPage.fresh blank_world)) = true
  ∧ ShopPage.currentShopId
      (snd (ShopPage.getCurrentShopInfo
              {| ShopPage.location_hostname := "foo.booth.pm";
                 ShopPage.shopNameElement := Some "Foo";
                 ShopPage.insertionPoint := Some ShopPage.GlobalNav |}
              (ShopPage.fresh blank_world))) = Some "foo".
Proof.
  apply (getCurrentShopInfo_agrees_with_extractShopId sample_URL_hostname
           {| ShopPage.location_hostname := "foo.booth.pm";
              ShopPage.shopNameElement := Some "Foo";
              ShopPage.insertionPoint := Some ShopPage.GlobalNav |}
           (ShopPage.fresh blank_world) "https://foo.booth.pm/" blank_world
           "foo").
  - reflexivity.
  - discriminate.
  - reflexivity.
Defined.

(** In a container with at most one button and one memo, removing the
    first of each leaves nothing. *)
Lemma remove_controls kids :
  (length (List.filter ShopPage.is_button kids) <= 1)%nat →
  (length (List.filter ShopPage.is_memo kids) <= 1)%nat →
  ShopPage.remove_first ShopPage.is_memo
    (ShopPage.remove_first ShopPage.is_button kids) = [].
Proof.
  destruct kids as [|[b1|r1] [|[b2|r2] [|[b3|r3] rest]]]; simpl;
    intros; try reflexivity; lia.
Qed.

Lemma append_controls_built isBlocked reason :
  List.filter ShopPage.is_button
    (ShopPage.append_controls isBlocked reason [])
  = [ShopPage.ButtonWidget
       (ShopPage.addEventListener
          (if isBlocked then ShopPage.HandleUnblock else ShopPage.HandleBlock)
          (ShopPage.createBlockButton isBlocked))]
  ∧ List.filter ShopPage.is_memo
      (ShopPage.append_controls isBlocked reason [])
    = (if isBlocked && negb (String.eqb reason "")
       then [ShopPage.MemoWidget reason] else []).
Proof.
  unfold ShopPage.append_controls, ShopPage.createMemoDisplay.
  destruct isBlocked; simpl; [|auto].
  destruct (String.eqb reason ""); simpl; auto.
Qed.

(** [updateUI] on a container the script built: the container then holds
    a fresh button for the given state, with the matching click handler,
    and nothing of what it held before; it holds a memo exactly when the
    state is blocked with a non-empty reason. A later update overrides an
    earlier one. *)
Theorem updateUI_replaces_controls
    (isBlocked : bool) (reason : string) (p : ShopPage.Page) :
  ShopPage.script_built p →
  is_Some (ShopPage.container p) →
  ShopPage.container (ShopPage.updateUI isBlocked reason p)
  = Some (ShopPage.append_controls isBlocked reason [])
  ∧ ShopPage.shown_button (ShopPage.updateUI isBlocked reason p)
    = Some (ShopPage.addEventListener
              (if isBlocked then ShopPage.HandleUnblock
               else ShopPage.HandleBlock)
              (ShopPage.createBlockButton isBlocked))
  ∧ ShopPage.shown_memo (ShopPage.updateUI isBlocked reason p)
    = (if isBlocked && negb (String.eqb reason "") then Some reason
       else None)
  ∧ ShopPage.script_built (ShopPage.updateUI isBlocked reason p)
  ∧ ∀ isBlocked' reason',
      ShopPage.updateUI isBlocked' reason'
        (ShopPage.updateUI isBlocked reason p)
      = ShopPage.updateUI isBlocked' reason' p.
Proof.
  unfold ShopPage.script_built, ShopPage.updateUI, ShopPage.shown_button,
    ShopPage.shown_memo.
  intros Hbuilt [kids Hkids]. rewrite Hkids in *. destruct Hbuilt as [Hb Hm].
  rewrite (remove_controls kids Hb Hm). simpl.
  destruct (append_controls_built isBlocked reason) as [Hbutton Hmemo].
  rewrite Hbutton, Hmemo. simpl.
  split; [reflexivity|]. split; [reflexivity|].
  split; [destruct (isBlocked && negb (String.eqb reason "")); reflexivity|].
  split.
  - split; [lia|].
    destruct (isBlocked && negb (String.eqb reason "")); simpl; lia.
  - intros isBlocked' reason'. rewrite remove_controls.
    + reflexivity.
    + rewrite Hbutton. simpl. lia.
    + rewrite Hmemo.
      destruct (isBlocked && negb (String.eqb reason "")); simpl; lia.
Qed.

Lemma updateUI_replaces_controls_witness :
  ShopPage.shown_memo
    (ShopPage.updateUI true "spam"
       (ShopPage.with_container
          (ShopPage.append_controls false "" [])
          (ShopPage.fresh blank_world)))
  = Some "spam".
Proof.
  destruct (updateUI_replaces_controls true "spam"
              (ShopPage.with_container
                 (ShopPage.append_controls false "" [])
                 (ShopPage.fresh blank_world)))
    as (_ & _ & Hmemo & _).
  - unfold ShopPage.script_built. simpl. split; lia.
  - simpl. eauto.
  - exact Hmemo.
Defined.

Lemma js_in_by_js_get {V} (k : string) (o : gmap string V) :
  js_in k o = match js_get k o with Undefined => false | _ => true end.
Proof.
  unfold js_in, js_get. destruct (o !! k); [reflexivity|].
  destruct (inherited k); reflexivity.
Qed.

Lemma getShopInfo_run shopId w :
  BoothShopStorage.getShopInfo shopId w
  = (Normal (js_get shopId (read_view w)), after_read w).
Proof.
  unfold BoothShopStorage.getShopInfo.
  rewrite (bind_run _ _ _ _ _ (getAllBlocked_run w)). reflexivity.
Qed.

(** [injectUI] on a shop's page that has the insertion point and no
    container yet: it sets the current shop id, reads the storage area
    once, and builds a container whose button shows the unblock state
    exactly when [id in blocked] holds for the blocklist read (the empty
    one when the read rejects), with a memo exactly for a stored record
    with a non-empty reason. Calling it again changes nothing and reads
    nothing. *)
Theorem injectUI_shows_stored_state
    (host : ShopPage.Host) (p : ShopPage.Page) (target : ShopPage.Target)
    (id : string) :
  ShopPage.container p = None →
  ShopPage.insertionPoint host = Some target →
  match_shop_host (ShopPage.location_hostname host) = Some id →
  reserved id = false →
  ShopPage.currentShopId (ShopPage.injectUI host p) = Some id
  ∧ ShopPage.shown_button (ShopPage.injectUI host p)
    = Some (ShopPage.addEventListener
              (if js_in id (read_view (ShopPage.world p))
               then ShopPage.HandleUnblock else ShopPage.HandleBlock)
              (ShopPage.createBlockButton
                 (js_in id (read_view (ShopPage.world p)))))
  ∧ ShopPage.shown_memo (ShopPage.injectUI host p)
    = match js_get id (read_view (ShopPage.world p)) with
      | Own rec => if String.eqb (reason rec) "" then None
                   else Some (reason rec)
      | _ => None
      end
  ∧ ShopPage.script_built (ShopPage.injectUI host p)
  ∧ ShopPage.world (ShopPage.injectUI host p) = after_read (ShopPage.world p)
  ∧ ShopPage.injectUI host (ShopPage.injectUI host p)
    = ShopPage.injectUI host p.
Proof.
  intros Hnone Htarget Hmatch Hres.
  assert (ShopPage.injectUI host p
          = ShopPage.with_placement target
              (ShopPage.with_container
                 (ShopPage.append_controls
                    (js_in id (read_view (ShopPage.world p)))
                    (ShopPage.reason_of
                       (js_get id (read_view (ShopPage.world p)))) [])
                 (ShopPage.with_world (after_read (ShopPage.world p))
                    (ShopPage.with_shop id
                       (match ShopPage.shopNameElement host with
                        | Some text => text
                        | None => id
                        end) p)))) as Hrun.
  { unfold ShopPage.injectUI, ShopPage.getCurrentShopInfo.
    rewrite Hmatch, Hres. simpl. rewrite Hnone, Htarget.
    rewrite getShopInfo_run, js_in_by_js_get. reflexivity. }
  rewrite Hrun.
  destruct (append_controls_built
              (js_in id (read_view (ShopPage.world p)))
              (ShopPage.reason_of (js_get id (read_view (ShopPage.world p)))))
    as [Hbutton Hmemo].
  unfold ShopPage.shown_button, ShopPage.shown_memo, ShopPage.script_built.
  simpl. rewrite Hbutton, Hmemo.
  split; [reflexivity|]. split; [reflexivity|]. split; [|split; [|split]].
  - rewrite js_in_by_js_get.
    destruct (js_get id (read_view (ShopPage.world p))) as [rec| |]; simpl;
      try reflexivity.
    destruct (String.eqb (reason rec) ""); reflexivity.
  - split; [simpl; lia|].
    destruct (_ && _); simpl; lia.
  - reflexivity.
  - unfold ShopPage.injectUI, ShopPage.getCurrentShopInfo.
    rewrite Hmatch, Hres. reflexivity.
Qed.

Lemma injectUI_shows_stored_state_witness :
  ShopPage.shown_memo
    (ShopPage.injectUI
       {| ShopPage.location_hostname := "foo.booth.pm";
          ShopPage.shopNameElement := Some "Foo";
          ShopPage.insertionPoint := Some ShopPage.GlobalNav |}
       (ShopPage.fresh (store_world (Some {[ "foo" := sample_record ]}) [])))
  = Some "spam".
Proof.
  destruct (injectUI_shows_stored_state
              {| ShopPage.location_hostname := "foo.booth.pm";
                 ShopPage.shopNameElement := Some "Foo";
                 ShopPage.insertionPoint := Some ShopPage.GlobalNav |}
              (ShopPage.fresh
                 (store_world (Some {[ "foo" := sample_record ]}) []))
              ShopPage.GlobalNav "foo")
    as (_ & _ & Hmemo & _).
  - reflexivity.
  - reflexivity.
  - reflexivity.
  - reflexivity.
  - rewrite Hmemo. vm_compute. reflexivity.
Defined.

(** What [updateUI] leaves of a page whose container the script built. *)
Lemma updateUI_frame isBlocked reason p :
  ShopPage.script_built p →
  is_Some (ShopPage.container p) →
  ShopPage.alerts (ShopPage.updateUI isBlocked reason p) = ShopPage.alerts p
  ∧ ShopPage.world (ShopPage.updateUI isBlocked reason p) = ShopPage.world p
  ∧ ShopPage.shown_button (ShopPage.updateUI isBlocked reason p)
    = Some (ShopPage.addEventListener
              (if isBlocked then ShopPage.HandleUnblock
               else ShopPage.HandleBlock)
              (ShopPage.createBlockButton isBlocked))
  ∧ ShopPage.shown_memo (ShopPage.updateUI isBlocked reason p)
    = (if isBlocked && negb (String.eqb reason "") then Some reason
       else None).
Proof.
  unfold ShopPage.script_built, ShopPage.updateUI, ShopPage.shown_button,
    ShopPage.shown_memo.
  intros Hbuilt [kids Hkids]. rewrite Hkids in *. destruct Hbuilt as [Hb Hm].
  rewrite (remove_controls kids Hb Hm). simpl.
  destruct (append_controls_built isBlocked reason) as [-> ->].
  split; [reflexivity|]. split; [reflexivity|]. split; [reflexivity|].
  destruct (isBlocked && negb (String.eqb reason "")); reflexivity.
Qed.

(** [handleBlock] on a page whose shop is set and whose container the
    script built. A cancelled prompt changes nothing and calls nothing.
    With an answer: if the write is rejected, the failure alert is shown,
    the stored value and the container stay as they were; if the write
    goes through, the success alert is shown, the stored blocklist is the
    one read with the shop's record assigned, and the container shows the
    unblock button, with the reason as memo unless it is empty. *)
Theorem handleBlock_outcome
    (p : ShopPage.Page) (shopId shopName why : string) :
  ShopPage.currentShopId p = Some shopId →
  ShopPage.currentShopName p = Some shopName →
  ShopPage.script_built p →
  is_Some (ShopPage.container p) →
  ShopPage.handleBlock None p = p
  ∧ (fault_at 1 (ShopPage.world p) = true →
     ShopPage.alerts (ShopPage.handleBlock (Some why) p)
     = ShopPage.alerts p ++ [ShopPage.AlertBlockFailed]
     ∧ ShopPage.container (ShopPage.handleBlock (Some why) p)
       = ShopPage.container p
     ∧ persisted (ShopPage.world (ShopPage.handleBlock (Some why) p))
       = persisted (ShopPage.world p))
  ∧ (fault_at 1 (ShopPage.world p) = false →
     ShopPage.alerts (ShopPage.handleBlock (Some why) p)
     = ShopPage.alerts p ++ [ShopPage.AlertBlocked]
     ∧ ShopPage.shown_button (ShopPage.handleBlock (Some why) p)
       = Some (ShopPage.addEventListener ShopPage.HandleUnblock
                 (ShopPage.createBlockButton true))
     ∧ ShopPage.shown_memo (ShopPage.handleBlock (Some why) p)
       = (if String.eqb why "" then None else Some why)
     ∧ persisted (ShopPage.world (ShopPage.handleBlock (Some why) p))
       = Some (js_assign shopId
                 {| name := shopName; reason := why;
                    timestamp := clock (ShopPage.world p) |}
                 (read_view (ShopPage.world p)))).
Proof.
  intros Hid Hname Hbuilt Hcontainer.
  split; [reflexivity|].
  unfold ShopPage.handleBlock. rewrite Hid, Hname, blockShop_run.
  split; intros Hwrite; rewrite Hwrite; cbn [negb].
  - cbn [ShopPage.alerts ShopPage.container ShopPage.world ShopPage.alert
         ShopPage.with_world].
    rewrite persisted_after_read_write, Hwrite. repeat split.
  - destruct (updateUI_frame true why
                (ShopPage.alert ShopPage.AlertBlocked
                   (ShopPage.with_world
                      (after_read_write
                         (js_assign shopId
                            {| name := shopName; reason := why;
                               timestamp := clock (ShopPage.world p) |}
                            (read_view (ShopPage.world p)))
                         "Failed to block shop:" (ShopPage.world p)) p)))
      as (Halerts & Hworld & Hbutton & Hmemo); [exact Hbuilt|exact Hcontainer|].
    rewrite Halerts, Hworld, Hbutton, Hmemo. simpl.
    rewrite Hwrite. repeat split.
    destruct (String.eqb why ""); reflexivity.
Qed.

Lemma handleBlock_outcome_witness :
  ShopPage.shown_memo
    (ShopPage.handleBlock (Some "spam")
       (ShopPage.injectUI
          {| ShopPage.location_hostname := "foo.booth.pm";
             ShopPage.shopNameElement := Some "Foo";
             ShopPage.insertionPoint := Some ShopPage.GlobalNav |}
          (ShopPage.fresh blank_world)))
  = Some "spam".
Proof.
  destruct (handleBlock_outcome
              (ShopPage.injectUI
                 {| ShopPage.location_hostname := "foo.booth.pm";
                    ShopPage.shopNameElement := Some "Foo";
                    ShopPage.insertionPoint := Some ShopPage.GlobalNav |}
                 (ShopPage.fresh blank_world))
              "foo" "Foo" "spam") as (_ & _ & Hok).
  - reflexivity.
  - reflexivity.
  - vm_compute. split; repeat constructor.
  - vm_compute. eauto.
  - destruct Hok as (_ & _ & Hmemo & _); [reflexivity|].
    exact Hmemo.
Defined.

(** [handleUnblock] on such a page. A refused confirmation changes
    nothing and calls nothing. Otherwise: if the write is rejected, the
    failure alert is shown and the stored value and the container stay as
    they were; if it goes through, the success alert is shown, the stored
    blocklist is the one read without the shop's key, and the container
    shows the block button and no memo. *)
Theorem handleUnblock_outcome (p : ShopPage.Page) (shopId : string) :
  ShopPage.currentShopId p = Some shopId →
  ShopPage.script_built p →
  is_Some (ShopPage.container p) →
  ShopPage.handleUnblock false p = p
  ∧ (fault_at 1 (ShopPage.world p) = true →
     ShopPage.alerts (ShopPage.handleUnblock true p)
     = ShopPage.alerts p ++ [ShopPage.AlertUnblockFailed]
     ∧ ShopPage.container (ShopPage.handleUnblock true p)
       = ShopPage.container p
     ∧ persisted (ShopPage.world (ShopPage.handleUnblock true p))
       = persisted (ShopPage.world p))
  ∧ (fault_at 1 (ShopPage.world p) = false →
     ShopPage.alerts (ShopPage.handleUnblock true p)
     = ShopPage.alerts p ++ [ShopPage.AlertUnblocked]
     ∧ ShopPage.shown_button (ShopPage.handleUnblock true p)
       = Some (ShopPage.addEventListener ShopPage.HandleBlock
                 (ShopPage.createBlockButton false))
     ∧ ShopPage.shown_memo (ShopPage.handleUnblock true p) = None
     ∧ persisted (ShopPage.world (ShopPage.handleUnblock true p))
       = Some (delete shopId (read_view (ShopPage.world p)))).
Proof.
  intros Hid Hbuilt Hcontainer.
  split; [reflexivity|].
  unfold ShopPage.handleUnblock. rewrite Hid, unblockShop_run.
  split; intros Hwrite; rewrite Hwrite; cbn [negb].
  - cbn [ShopPage.alerts ShopPage.container ShopPage.world ShopPage.alert
         ShopPage.with_world].
    rewrite persisted_after_read_write, Hwrite. repeat split.
  - destruct (updateUI_frame false ""
                (ShopPage.alert ShopPage.AlertUnblocked
                   (ShopPage.with_world
                      (after_read_write
                         (js_delete shopId (read_view (ShopPage.world p)))
                         "Failed to unblock shop:" (ShopPage.world p)) p)))
      as (Halerts & Hworld & Hbutton & Hmemo); [exact Hbuilt|exact Hcontainer|].
    rewrite Halerts, Hworld, Hbutton, Hmemo. simpl.
    rewrite Hwrite. repeat split.
Qed.

Lemma handleUnblock_outcome_witness :
  persisted
    (ShopPage.world
       (ShopPage.handleUnblock true
          (ShopPage.injectUI
             {| ShopPage.location_hostname := "foo.booth.pm";
                ShopPage.shopNameElement := Some "Foo";
                ShopPage.insertionPoint := Some ShopPage.GlobalNav |}
             (ShopPage.fresh
                (store_world (Some {[ "foo" := sample_record ]}) [])))))
  = Some ∅.
Proof.
  destruct (handleUnblock_outcome
              (ShopPage.injectUI
                 {| ShopPage.location_hostname := "foo.booth.pm";
                    ShopPage.shopNameElement := Some "Foo";
                    ShopPage.insertionPoint := Some ShopPage.GlobalNav |}
                 (ShopPage.fresh
                    (store_world (Some {[ "foo" := sample_record ]}) [])))
              "foo") as (_ & _ & Hok).
  - reflexivity.
  - vm_compute. split; repeat constructor.
  - vm_compute. eauto.
  - destruct Hok as (_ & _ & _ & Hstored); [reflexivity|].
    rewrite Hstored. vm_compute. reflexivity.
Defined.

(** The shop page and the listing page read a notification alike: for one
    and the same change of the key in the local area, the shop page of
    shop [id] shows the unblock button exactly when the listing page hides
    the cards annotated with [id]. *)
Theorem shop_page_agrees_with_listing
    (change : StorageChange) (p : ShopPage.Page) (id : string)
    (w : World) (n : DomNode) (e : Element) :
  ShopPage.currentShopId p = Some id →
  id ≠ "" →
  ShopPage.script_built p →
  is_Some (ShopPage.container p) →
  In n (descendants (document w)) →
  element_at w n = Some e →
  has_class "item-card" e = true →
  attributes e !! "data-shop-id" = Some id →
  ∃ button e',
    ShopPage.shown_button
      (ShopPage.storage_listener {| blockedShops := Some change |} "local" p)
    = Some button
    ∧ element_at
        (snd (storage_listener {| blockedShops := Some change |} "local" w)) n
      = Some e'
    ∧ (ShopPage.data_blocked button = "true" ↔ hidden e' = true).
Proof.
  intros Hid Hne Hbuilt Hcontainer Hin He Hclass Hattr.
  destruct (storage_listener_reconciles change w n e id Hin He Hclass Hattr Hne)
    as (e' & He' & _ & Hhidden).
  unfold ShopPage.storage_listener. simpl. rewrite Hid.
  apply String.eqb_neq in Hne. rewrite Hne.
  fold (blocklist_of (newValue change)).
  destruct (updateUI_frame
              (js_in id (blocklist_of (newValue change)))
              (if js_in id (blocklist_of (newValue change))
               then ShopPage.reason_of
                      (js_get id (blocklist_of (newValue change)))
               else "") p Hbuilt Hcontainer)
    as (_ & _ & Hbutton & _).
  eexists _, e'. split; [exact Hbutton|]. split; [exact He'|].
  rewrite Hhidden. simpl.
  destruct (js_in id (blocklist_of (newValue change))); simpl;
    split; congruence.
Qed.

Lemma shop_page_agrees_with_listing_witness :
  ∃ button e',
    ShopPage.shown_button
      (ShopPage.storage_listener
         {| blockedShops :=
              Some {| oldValue := None;
                      newValue := Some {[ "foo" := sample_record ]} |} |}
         "local"
         (ShopPage.injectUI
            {| ShopPage.location_hostname := "foo.booth.pm";
               ShopPage.shopNameElement := Some "Foo";
               ShopPage.insertionPoint := Some ShopPage.GlobalNav |}
            (ShopPage.fresh blank_world)))
    = Some button
    ∧ element_at
        (snd (storage_listener
                {| blockedShops :=
                     Some {| oldValue := None;
                             newValue := Some {[ "foo" := sample_record ]} |} |}
                "local"
                (page_with_card (card_element {[ "data-shop-id" := "foo" ]} "")
                   "https://foo.booth.pm/items/1")))
        card_node
      = Some e'
    ∧ (ShopPage.data_blocked button = "true" ↔ hidden e' = true).
Proof.
  apply (shop_page_agrees_with_listing
           {| oldValue := None;
              newValue := Some {[ "foo" := sample_record ]} |}
           (ShopPage.injectUI
              {| ShopPage.location_hostname := "foo.booth.pm";
                 ShopPage.shopNameElement := Some "Foo";
                 ShopPage.insertionPoint := Some ShopPage.GlobalNav |}
              (ShopPage.fresh blank_world))
           "foo"
           (page_with_card (card_element {[ "data-shop-id" := "foo" ]} "")
              "https://foo.booth.pm/items/1")
           card_node (card_element {[ "data-shop-id" := "foo" ]} "")).
  - reflexivity.
  - discriminate.
  - vm_compute. split; repeat constructor.
  - vm_compute. eauto.
  - simpl. auto.
  - reflexivity.
  - reflexivity.
  - vm_compute. reflexivity.
Defined.

(** ** The popup

    The order of the list: [sort_entries] is a stable sort, newest
    first. *)












Lemma get_run w :
  browser_storage_local_get w
  = (if fault_at 0 w then Throw StorageError else Normal (persisted w),
     with_storage (persisted w) (drop 1 (faults w))
       (storage_calls w ++ [LocalGet]) w).
Proof.
  unfold browser_storage_local_get, next_fault, fault_at.
  destruct (faults w) as [|[] rest]; reflexivity.
Qed.

Lemma set_run value w :
  browser_storage_local_set value w
  = (if fault_at 0 w then Throw StorageError else Normal tt,
     with_storage (if fault_at 0 w then persisted w else Some value)
       (drop 1 (faults w)) (storage_calls w ++ [LocalSet value]) w).
Proof.
  unfold browser_storage_local_set, next_fault, fault_at.
  destruct (faults w) as [|[] rest]; reflexivity.
Qed.



(** [displayShopList] when the read rejects: the children of the list are
    replaced by the error message and a line is logged, but [updateUI] is
    not reached: the count shown and the display of the list and of the
    empty state stay as they were. *)
Theorem displayShopList_read_fault formatDate escapeHtml Object_entries p :
  fault_at 0 (Popup.world p) = true →
  let p' := Popup.displayShopList formatDate escapeHtml Object_entries p in
  Popup.shopList p' = [Popup.ErrorDiv]
  ∧ Popup.blockedCount p' = Popup.blockedCount p
  ∧ Popup.shopList_display p' = Popup.shopList_display p
  ∧ Popup.emptyState_display p' = Popup.emptyState_display p
  ∧ console (Popup.world p')
    = console (Popup.world p) ++ ["Failed to load blocked shops:"]
  ∧ persisted (Popup.world p') = persisted (Popup.world p)
  ∧ storage_calls (Popup.world p')
    = storage_calls (Popup.world p) ++ [LocalGet]
  ∧ Popup.alerts p' = Popup.alerts p.
Proof.
  intros Hread p'. subst p'. unfold Popup.displayShopList.
  rewrite get_run, Hread. repeat split.
Qed.

Lemma displayShopList_read_fault_witness :
  Popup.shopList
    (Popup.displayShopList (λ _, "") id map_to_list
       (Popup.displayShopList (λ _, "") id map_to_list
          (sample_popup [false; true])))
  = [Popup.ErrorDiv]
  ∧ Popup.blockedCount
      (Popup.displayShopList (λ _, "") id map_to_list
         (Popup.displayShopList (λ _, "") id map_to_list
            (sample_popup [false; true])))
    = 2%nat.
Proof.
  destruct (displayShopList_read_fault (λ _, "") id map_to_list
              (Popup.displayShopList (λ _, "") id map_to_list
                 (sample_popup [false; true])))
    as (Hlist & Hcount & _).
  - reflexivity.
  - split; [exact Hlist|]. rewrite Hcount. vm_compute. reflexivity.
Defined.

Lemma shown_ids_fade_first sel p q :
  Popup.shopList q = Popup.fade_first sel (Popup.shopList p) →
  Popup.shown_ids q = Popup.shown_ids p.
Proof.
  unfold Popup.shown_ids. intros ->.
  induction (Popup.shopList p) as [|child rest IH]; [reflexivity|].
  cbn [Popup.fade_first]. destruct (sel child).
  - destruct child; reflexivity.
  - cbn [flat_map]. by rewrite IH.
Qed.

(** [handleUnblock] in the popup. Without confirmation nothing happens.
    With it the cards listed and the count shown are as before when the
    function returns (the card goes only when the timer fires). A rejected
    read stops before any write; a rejected write leaves the stored value;
    both raise the failure alert. When both succeed the stored blocklist
    is the one read without [shopId], whatever the page holds; the failure
    alert is then raised only if the selector built from [shopId] is
    rejected, and otherwise a timer is set exactly when a card is
    found. *)
Theorem popup_handleUnblock_outcome spliced_value shopId shopName p :
  let w := Popup.world p in
  let blocked := blocklist_of (persisted w) in
  let p' := Popup.handleUnblock spliced_value true shopId shopName p in
  Popup.handleUnblock spliced_value false shopId shopName p = p
  ∧ Popup.shown_ids p' = Popup.shown_ids p
  ∧ Popup.blockedCount p' = Popup.blockedCount p
  ∧ (fault_at 0 w = true →
       persisted (Popup.world p') = persisted w
       ∧ storage_calls (Popup.world p') = storage_calls w ++ [LocalGet]
       ∧ Popup.alerts p' = Popup.alerts p ++ [Popup.AlertUnblockFailed]
       ∧ Popup.shopList p' = Popup.shopList p
       ∧ Popup.timers p' = Popup.timers p)
  ∧ (fault_at 0 w = false → fault_at 1 w = true →
       persisted (Popup.world p') = persisted w
       ∧ storage_calls (Popup.world p')
         = storage_calls w ++ [LocalGet; LocalSet (delete shopId blocked)]
       ∧ Popup.alerts p' = Popup.alerts p ++ [Popup.AlertUnblockFailed]
       ∧ Popup.shopList p' = Popup.shopList p
       ∧ Popup.timers p' = Popup.timers p)
  ∧ (fault_at 0 w = false → fault_at 1 w = false →
       persisted (Popup.world p') = Some (delete shopId blocked)
       ∧ storage_calls (Popup.world p')
         = storage_calls w ++ [LocalGet; LocalSet (delete shopId blocked)]
       ∧ match spliced_value shopId with
         | Some value =>
             Popup.alerts p' = Popup.alerts p
             ∧ Popup.timers p'
               = Popup.timers p
                 ++ scheduled
                      (Popup.found_node (Popup.card_has_id value)
                         (Popup.shopList p))
         | None =>
             Popup.alerts p' = Popup.alerts p ++ [Popup.AlertUnblockFailed]
             ∧ Popup.shopList p' = Popup.shopList p
             ∧ Popup.timers p' = Popup.timers p
         end).
Proof.
  intros w blocked p'. split; [reflexivity|].
  subst p'. unfold Popup.handleUnblock. cbn [negb].
  rewrite get_run. fold w.
  destruct (fault_at 0 w) eqn:Hread.
  { repeat split; try discriminate; reflexivity. }
  rewrite set_run.
  replace (fault_at 0 (with_storage (persisted w) (drop 1 (faults w))
                         (storage_calls w ++ [LocalGet]) w))
    with (fault_at 1 w)
    by (unfold fault_at; destruct (faults w) as [|b [|b' rest]]; reflexivity).
  unfold js_delete. fold blocked.
  destruct (fault_at 1 w) eqn:Hwrite.
  { repeat split; try discriminate; cbn; by rewrite <- app_assoc. }
  destruct (spliced_value shopId) as [value|].
  2:{ repeat split; try discriminate; cbn; by rewrite <- ?app_assoc. }
  destruct (Popup.found_node (Popup.card_has_id value) (Popup.shopList p))
    as [node|] eqn:Hfound.
  - split; [by eapply shown_ids_fade_first|].
    repeat split; try discriminate; cbn; by rewrite <- ?app_assoc.
  - repeat split; try discriminate; cbn; by rewrite <- ?app_assoc, ?app_nil_r.
Qed.














